(** * Hotel rooms with discount strategies: a shallow embedding

    The embedded program is the single translation unit [сем3_laba3.cpp]:
    the exception classes, the two discount strategies, [RoomBase],
    [Hotel], the console helpers and [main].

    Conventions of the embedding.
    - [double] is IEEE-754 binary64 with round-to-nearest-even, every
      operation rounded once: Rocq's primitive [float].
    - [std::string] is a byte string: Rocq's [string]; [size()] is
      [String.length].
    - [throw] is modelled by an error monad over the mutable state, in which
      a thrown exception keeps whatever the state was at the throw (C++ does
      not roll anything back).
    - [std::cerr] is an output log that is part of the state. *)

From Stdlib Require Import Floats ZArith List String Ascii Bool Lia.
Import ListNotations.

Local Open Scope string_scope.

(** ** Exceptions *)

Module Exceptions.

(** [HotelException] and its three subclasses; every subclass prefixes the
    message it is given. *)
Inductive HotelException : Type :=
| InvalidValueException (what : string)
| DuplicateRoomException (what : string)
| EmptyRoomListException (what : string).

Definition mkInvalidValueException (msg : string) : HotelException :=
  InvalidValueException ("Некорректное значение: " ++ msg).

Definition mkDuplicateRoomException (msg : string) : HotelException :=
  DuplicateRoomException ("Дубликат номера: " ++ msg).

Definition mkEmptyRoomListException (msg : string) : HotelException :=
  EmptyRoomListException ("Список номеров пуст: " ++ msg).

(** The error kinds of the specification. *)
Definition isInvalidValue (e : HotelException) : bool :=
  match e with InvalidValueException _ => true | _ => false end.

Definition isDuplicateRoom (e : HotelException) : bool :=
  match e with DuplicateRoomException _ => true | _ => false end.

Definition isEmptyCollection (e : HotelException) : bool :=
  match e with EmptyRoomListException _ => true | _ => false end.

End Exceptions.
Export Exceptions.

(** A computation that either throws or returns. *)
Definition result (A : Type) : Type := (HotelException + A)%type.

Definition failsWith {A : Type} (kind : HotelException -> bool) (r : result A) : Prop :=
  match r with
  | inl e => kind e = true
  | inr _ => False
  end.

(** ** Discount strategies *)

Module Discount.

Local Open Scope float_scope.

(** The two implementations of [IDiscountStrategy]; the percentage strategy
    stores [discountPercent]. *)
Inductive IDiscountStrategy : Type :=
| NoDiscountStrategy
| PercentageDiscountStrategy (discountPercent : float).

(** Constructor of [PercentageDiscountStrategy]: the member is initialised,
    then the two range checks run in this order. *)
Definition newPercentageDiscountStrategy (percent : float) : result IDiscountStrategy :=
  let discountPercent := percent in
  if discountPercent <? 0 then
    inl (mkInvalidValueException "процент скидки должен быть >= 0")
  else if 100 <=? discountPercent then
    inl (mkInvalidValueException "процент скидки должен быть < 100")
  else inr (PercentageDiscountStrategy discountPercent).

(** The virtual [computeCost]. *)
Definition computeCost (s : IDiscountStrategy) (baseCost : float) : float :=
  match s with
  | NoDiscountStrategy => baseCost
  | PercentageDiscountStrategy discountPercent =>
      baseCost * (1 - discountPercent / 100)
  end.

End Discount.
Export Discount.

(** ** Rooms *)

Module Room.

Local Open Scope float_scope.

(** [RoomBase].  The strategy member is a [shared_ptr] that the constructor
    has checked to be non-null, so the record holds the strategy itself. *)
Record RoomBase : Type := mkRoomBase {
  number : string;
  baseCost : float;
  discountStrategy : IDiscountStrategy
}.

(** Constructor of [RoomBase]; [None] is the null [shared_ptr].  The three
    checks run in the order of the source. *)
Definition newRoomBase (number_ : string) (baseCost_ : float)
    (strategy_ : option IDiscountStrategy) : result RoomBase :=
  if (String.length number_ =? 0)%nat then
    inl (mkInvalidValueException "номер комнаты не может быть пустым")
  else if baseCost_ <=? 0 then
    inl (mkInvalidValueException "базовая стоимость должна быть > 0")
  else
    match strategy_ with
    | None => inl (mkInvalidValueException "стратегия скидки не может быть null")
    | Some s => inr (mkRoomBase number_ baseCost_ s)
    end.

Definition getNumber (r : RoomBase) : string := number r.
Definition getBaseCost (r : RoomBase) : float := baseCost r.
Definition getFinalCost (r : RoomBase) : float :=
  computeCost (discountStrategy r) (baseCost r).

End Room.
Export Room.

(** ** The state and its monad *)

(** What [Hotel]'s member functions can touch: the [rooms] vector of the
    hotel and the lines written to [std::cerr]. *)
Record State : Type := mkState {
  rooms : list RoomBase;
  cerr : list string
}.

Definition M (A : Type) : Type := State -> result A * State.

Definition ret {A : Type} (a : A) : M A := fun st => (inr a, st).

Definition throw {A : Type} (e : HotelException) : M A := fun st => (inl e, st).

Definition bind {A B : Type} (m : M A) (k : A -> M B) : M B :=
  fun st =>
    match m st with
    | (inl e, st') => (inl e, st')
    | (inr a, st') => k a st'
    end.

(** A constructor that may throw, run inside a member function. *)
Definition construct {A : Type} (r : result A) : M A := fun st => (r, st).

Definition getRooms : M (list RoomBase) := fun st => (inr (rooms st), st).

Definition push_back (r : RoomBase) : M unit :=
  fun st => (inr tt, mkState (rooms st ++ [r]) (cerr st)).

Definition writeCerr (line : string) : M unit :=
  fun st => (inr tt, mkState (rooms st) (cerr st ++ [line])).

Declare Scope hotel_scope.
Delimit Scope hotel_scope with hotel.
Notation "x <- m ;; k" := (bind m (fun x => k))
  (at level 61, m at next level, right associativity) : hotel_scope.
Notation "m ;; k" := (bind m (fun _ => k))
  (at level 61, right associativity) : hotel_scope.

(** ** Hotel *)

Module Hotel.

Local Open Scope hotel_scope.

(** The range-for loop of [existsRoomNumber], with its early [return true]. *)
Fixpoint existsRoomNumber_loop (rs : list RoomBase) (num : string) : bool :=
  match rs with
  | [] => false
  | r :: rs' =>
      if String.eqb (getNumber r) num then true
      else existsRoomNumber_loop rs' num
  end.

Definition existsRoomNumber (num : string) : M bool :=
  rs <- getRooms ;; ret (existsRoomNumber_loop rs num).

Definition warningTooLong : string :=
  "Предупреждение: обозначение номера слишком длинное".

(** [Hotel::addRoom]. *)
Definition addRoom (number : string) (baseCost discountPercent : float) : M unit :=
  (if (50 <? String.length number)%nat then writeCerr warningTooLong else ret tt) ;;
  dup <- existsRoomNumber number ;;
  (if dup : bool then
     throw (mkDuplicateRoomException ("номер '" ++ number ++ "' уже существует"))
   else ret tt) ;;
  strat <- (if (discountPercent =? 0)%float then ret NoDiscountStrategy
            else construct (newPercentageDiscountStrategy discountPercent)) ;;
  room <- construct (newRoomBase number baseCost (Some strat)) ;;
  push_back room.

(** [static_cast<double>] of a [size_t]: the nearest binary64. *)
Definition double_of_size (n : nat) : float :=
  SF2Prim (binary_normalize prec emax (Z.of_nat n) 0 false).

(** The accumulation loop of [calculateAverageCost]. *)
Fixpoint sumFinalCost_loop (rs : list RoomBase) (sum : float) : float :=
  match rs with
  | [] => sum
  | r :: rs' => sumFinalCost_loop rs' (sum + getFinalCost r)%float
  end.

(** [Hotel::calculateAverageCost]. *)
Definition calculateAverageCost : M float :=
  rs <- getRooms ;;
  match rs with
  | [] => throw (mkEmptyRoomListException "нечего усреднять")
  | _ :: _ =>
      let sum := sumFinalCost_loop rs 0%float in
      ret (sum / double_of_size (List.length rs))%float
  end.

(** A freshly constructed hotel, nothing written yet. *)
Definition emptyHotel : State := mkState [] [].

End Hotel.
Export Hotel.

(** ** Histories of calls *)

(** The states a hotel can be in: [addRoom] is the only member function that
    changes [rooms], and a call that throws leaves behind the state it had at
    the throw. *)
Inductive reachable : State -> Prop :=
| reachable_empty : reachable emptyHotel
| reachable_addRoom (st : State) (number : string) (baseCost discountPercent : float) :
    reachable st -> reachable (snd (addRoom number baseCost discountPercent st)).

(** The arguments of one call of [addRoom], and a history of calls run from
    a state on, thrown exceptions being caught by the caller. *)
Record AddRoomCall : Type := mkAddRoomCall {
  callNumber : string;
  callBaseCost : float;
  callDiscountPercent : float
}.

Definition runCall (st : State) (c : AddRoomCall) : State :=
  snd (addRoom (callNumber c) (callBaseCost c) (callDiscountPercent c) st).

Definition runCalls (cs : list AddRoomCall) (st : State) : State :=
  fold_left runCall cs st.

(** The sum named by the specification of the average: the final costs of the
    rooms, added from the first room on. *)
Definition sumOfFinalCosts (rs : list RoomBase) : float :=
  fold_left PrimFloat.add (map getFinalCost rs) 0%float.

(** ** Vocabulary of binary64 rounding *)

(** The constants of the discount formula as the IEEE specification of the
    library writes them: mantissa and exponent of 1 and of 100. *)
Definition SF_one : spec_float := S754_finite false 4503599627370496 (-52).
Definition SF_hundred : spec_float := S754_finite false 7036874417766400 (-46).

(** Thresholds used below: [2^-45], [2^-52], [1 - 2^-52] (the second double
    under 1) and [2^-1022] (the smallest normal double). *)
Definition SF_2m45 : spec_float := S754_finite false 4503599627370496 (-97).
Definition SF_2m52 : spec_float := S754_finite false 4503599627370496 (-104).
Definition SF_one_minus_2m52 : spec_float := S754_finite false 9007199254740990 (-53).
Definition SF_min_normal : spec_float := S754_finite false 4503599627370496 (-1074).

(** A shifted mantissa has lost bits when its round or its sticky bit is set. *)
Definition inexact (mrs : shr_record) : bool := shr_r mrs || shr_s mrs.

Definition isExact (l : location) : bool :=
  match l with loc_Exact => true | loc_Inexact _ => false end.

(** What [k] single shifts do to a record, as a relation between the record
    before and the record after. *)
Definition shifted (k : Z) (a b : shr_record) : Prop :=
  (shr_m b = shr_m a / 2 ^ k)%Z /\
  inexact b = inexact a || negb (shr_m a mod 2 ^ k =? 0)%Z.

(** ** What [addRoom] accepts *)

(** The class invariants of a stored room, as the two constructors check
    them, with the discount as [addRoom] selects the strategy. *)
Definition validRoom (r : RoomBase) : bool :=
  negb (String.length (number r) =? 0)%nat &&
  negb (baseCost r <=? 0)%float &&
  match discountStrategy r with
  | NoDiscountStrategy => true
  | PercentageDiscountStrategy p =>
      negb (p <? 0)%float && negb (100 <=? p)%float && negb (p =? 0)%float
  end.

(** The arguments with which [addRoom] returns normally on a hotel that does
    not hold the label yet. *)
Definition validArgs (number : string) (baseCost discountPercent : float) : bool :=
  negb (String.length number =? 0)%nat &&
  negb (baseCost <=? 0)%float &&
  ((discountPercent =? 0)%float ||
   negb (discountPercent <? 0)%float && negb (100 <=? discountPercent)%float).

(** The strategy [addRoom] builds for a discount. *)
Definition strategyFor (discountPercent : float) : IDiscountStrategy :=
  if (discountPercent =? 0)%float then NoDiscountStrategy
  else PercentageDiscountStrategy discountPercent.

(** ** Console *)

(** The console helpers and [main].

    Conventions.
    - [std::cin] is the list of the lines still to be read, without their
      line ends; [getline] takes the first one.  A formatted read
      [cin >> x] followed by [clearStdin] passes over the lines that hold
      white space only and consumes the first other line whole.
    - What [operator>>] extracts from the text of a line is not computed
      here: it is the parameter [extractDouble], [None] when the extraction
      sets [failbit].
    - [std::cout] is the list of the operands inserted into it, manipulators
      included; how the stream lays them out is not modelled.
    - A read at the end of the input fails for ever after; a loop that then
      retries never ends, which is the outcome [Hangs]. *)

Module Console.

Local Open Scope list_scope.

Definition nl : string := String "010"%char EmptyString.

Inductive Manipulator : Type :=
| Left
| Fixed
| Setw (n : nat)
| Setprecision (n : nat).

Inductive Out : Type :=
| OutStr (s : string)
| OutChar (c : ascii)
| OutInt (n : Z)
| OutDouble (x : float)
| OutManip (m : Manipulator).

Record Console : Type := mkConsole {
  cin : list string;
  cout : list Out
}.

Definition write (c : Console) (os : list Out) : Console :=
  mkConsole (cin c) (cout c ++ os).

(** The outcome of a helper that reads until it accepts. *)
Inductive Read (A : Type) : Type :=
| Got (a : A) (c : Console)
| Hangs.
Arguments Got {A} a c.
Arguments Hangs {A}.

(** *** Searching and cutting strings *)

(** Membership of a character in the set given to the [find_*_not_of]
    functions. *)
Fixpoint contains (chars : string) (c : ascii) : bool :=
  match chars with
  | EmptyString => false
  | String d chars' => Ascii.eqb c d || contains chars' c
  end.

(** [s.find_first_not_of(chars)]; [None] is [npos]. *)
Fixpoint find_first_not_of (s chars : string) : option nat :=
  match s with
  | EmptyString => None
  | String c s' =>
      if contains chars c then option_map S (find_first_not_of s' chars)
      else Some 0
  end.

(** [s.find_last_not_of(chars)]; [None] is [npos]. *)
Fixpoint find_last_not_of (s chars : string) : option nat :=
  match s with
  | EmptyString => None
  | String c s' =>
      match find_last_not_of s' chars with
      | Some i => Some (S i)
      | None => if contains chars c then None else Some 0
      end
  end.

(** [s.substr(pos, n)], for [pos] within the string. *)
Definition substr (s : string) (pos n : nat) : string := substring pos n s.

(** The characters both line readers strip: blank, tab, carriage return,
    line feed. *)
Definition blanks : string :=
  String " "%char (String "009"%char (String "013"%char (String "010"%char EmptyString))).

(** The search for the two ends and the cut, as both line readers do them;
    [None] when either search answers [npos]. *)
Definition trimmed (line : string) : option string :=
  match find_first_not_of line blanks, find_last_not_of line blanks with
  | Some start, Some end_ => Some (substr line start (end_ - start + 1))
  | _, _ => None
  end.

(** *** [inputNonEmptyString] *)

Definition errEmptyString : string :=
  ("Ошибка: строка не может быть пустой. Попробуйте снова." ++ nl)%string.

Fixpoint inputNonEmptyString_loop (prompt : string) (lines : list string)
    (out : list Out) : Read string :=
  match lines with
  | [] => Hangs
  | line :: rest =>
      let out := out ++ [OutStr prompt] in
      match trimmed line with
      | None => inputNonEmptyString_loop prompt rest (out ++ [OutStr errEmptyString])
      | Some s =>
          if negb (String.length s =? 0)%nat then Got s (mkConsole rest out)
          else inputNonEmptyString_loop prompt rest (out ++ [OutStr errEmptyString])
      end
  end.

Definition inputNonEmptyString (prompt : string) (c : Console) : Read string :=
  inputNonEmptyString_loop prompt (cin c) (cout c).

(** *** The two readers of numbers *)

(** [isspace] in the classic locale, which is what [operator>>] skips. *)
Definition isspace (c : ascii) : bool :=
  let n := nat_of_ascii c in ((9 <=? n) && (n <=? 13) || (n =? 32))%nat.

Fixpoint allSpace (s : string) : bool :=
  match s with
  | EmptyString => true
  | String c s' => isspace c && allSpace s'
  end.

Definition errNotNumber : string := ("Ошибка: введите число." ++ nl)%string.
Definition errNotPositive : string :=
  ("Ошибка: значение должно быть больше 0. Попробуйте снова." ++ nl)%string.
Definition errTooLarge : string :=
  ("Ошибка: значение не должно превышать 1000000. Попробуйте снова." ++ nl)%string.
Definition errNegative : string :=
  ("Ошибка: значение не может быть отрицательным. Попробуйте снова." ++ nl)%string.
Definition errPercent : string :=
  ("Ошибка: процент скидки должен быть меньше 100. Попробуйте снова." ++ nl)%string.

Section Extraction.

(** What [cin >> x] extracts from a line that holds more than white space. *)
Variable extractDouble : string -> option float.

(** [prompted] tells that the prompt of the current round has been written:
    the round is still inside [cin >> x], passing over white space. *)
Fixpoint inputPositiveDouble_loop (prompt : string) (prompted : bool)
    (lines : list string) (out : list Out) : Read float :=
  match lines with
  | [] => Hangs
  | line :: rest =>
      let out := if prompted then out else out ++ [OutStr prompt] in
      if allSpace line then inputPositiveDouble_loop prompt true rest out
      else
        match extractDouble line with
        | None => inputPositiveDouble_loop prompt false rest (out ++ [OutStr errNotNumber])
        | Some x =>
            if (x <=? 0)%float then
              inputPositiveDouble_loop prompt false rest (out ++ [OutStr errNotPositive])
            else if (1000000 <? x)%float then
              inputPositiveDouble_loop prompt false rest (out ++ [OutStr errTooLarge])
            else Got x (mkConsole rest out)
        end
  end.

Definition inputPositiveDouble (prompt : string) (c : Console) : Read float :=
  inputPositiveDouble_loop prompt false (cin c) (cout c).

Fixpoint inputNonNegativeDouble_loop (prompt : string) (prompted : bool)
    (lines : list string) (out : list Out) : Read float :=
  match lines with
  | [] => Hangs
  | line :: rest =>
      let out := if prompted then out else out ++ [OutStr prompt] in
      if allSpace line then inputNonNegativeDouble_loop prompt true rest out
      else
        match extractDouble line with
        | None => inputNonNegativeDouble_loop prompt false rest (out ++ [OutStr errNotNumber])
        | Some x =>
            if (x <? 0)%float then
              inputNonNegativeDouble_loop prompt false rest (out ++ [OutStr errNegative])
            else if (100 <=? x)%float then
              inputNonNegativeDouble_loop prompt false rest (out ++ [OutStr errPercent])
            else Got x (mkConsole rest out)
        end
  end.

Definition inputNonNegativeDouble (prompt : string) (c : Console) : Read float :=
  inputNonNegativeDouble_loop prompt false (cin c) (cout c).

End Extraction.

(** *** [inputMenuChoice] *)

Definition isdigit (c : ascii) : bool :=
  ((48 <=? nat_of_ascii c) && (nat_of_ascii c <=? 57))%nat.

(** [all_of(s.begin(), s.end(), isdigit)]. *)
Fixpoint all_of_isdigit (s : string) : bool :=
  match s with
  | EmptyString => true
  | String c s' => isdigit c && all_of_isdigit s'
  end.

Definition INT_MAX : Z := 2147483647.

(** The number a string of decimal digits writes, from the value [acc] of
    the digits before it. *)
Fixpoint decimalValue (s : string) (acc : Z) : Z :=
  match s with
  | EmptyString => acc
  | String c s' => decimalValue s' (10 * acc + (Z.of_nat (nat_of_ascii c) - 48))
  end.

(** [std::stoi] on a string of decimal digits, the only strings it is called
    with: the value, or [None] for the [std::out_of_range] it throws when
    the value does not fit an [int]. *)
Definition stoi (s : string) : option Z :=
  if (decimalValue s 0 <=? INT_MAX)%Z then Some (decimalValue s 0) else None.

Inductive MenuRead : Type :=
| Chosen (val : Z) (c : Console)
| ThrowsOutOfRange (c : Console)
| MenuHangs.

Definition errNotInteger : string := ("Ошибка: введите целое число." ++ nl)%string.

Definition errOutOfRange (low high : Z) : list Out :=
  [OutStr "Ошибка: число должно быть в диапазоне ["; OutInt low; OutStr ", ";
   OutInt high; OutStr ("]." ++ nl)%string].

Fixpoint inputMenuChoice_loop (prompt : string) (low high : Z)
    (lines : list string) (out : list Out) : MenuRead :=
  match lines with
  | [] => MenuHangs
  | line :: rest =>
      let out := out ++ [OutStr prompt] in
      match trimmed line with
      | None => inputMenuChoice_loop prompt low high rest (out ++ [OutStr errNotNumber])
      | Some s =>
          let allDigits := negb (String.length s =? 0)%nat && all_of_isdigit s in
          if negb allDigits then
            inputMenuChoice_loop prompt low high rest (out ++ [OutStr errNotInteger])
          else
            match stoi s with
            | None => ThrowsOutOfRange (mkConsole rest out)
            | Some val =>
                if ((val <? low) || (high <? val))%Z then
                  inputMenuChoice_loop prompt low high rest (out ++ errOutOfRange low high)
                else Chosen val (mkConsole rest out)
            end
      end
  end.

Definition inputMenuChoice (prompt : string) (low high : Z) (c : Console) : MenuRead :=
  inputMenuChoice_loop prompt low high (cin c) (cout c).

(** *** [Hotel::printAll] *)

(** The insertions of one round of the loop of [printAll]. *)
Definition printRow (r : RoomBase) : list Out :=
  [OutManip Left; OutManip (Setw 12); OutStr (getNumber r);
   OutManip (Setw 14); OutManip Fixed; OutManip (Setprecision 2); OutDouble (getBaseCost r);
   OutManip (Setw 16); OutManip Fixed; OutManip (Setprecision 2); OutDouble (getFinalCost r);
   OutChar "010"%char].

Fixpoint printAll_loop (rs : list RoomBase) : list Out :=
  match rs with
  | [] => []
  | r :: rs' => printRow r ++ printAll_loop rs'
  end.

Definition printAllHeader : list Out :=
  [OutStr ("Текущие номера:" ++ nl)%string;
   OutManip Left; OutManip (Setw 12); OutStr "Номер";
   OutManip (Setw 14); OutStr "Баз.стоимость";
   OutManip (Setw 16); OutStr "После скидки"; OutChar "010"%char].

(** What [printAll] inserts into [cout]; the hotel is not changed. *)
Definition printAll (st : State) : list Out :=
  match rooms st with
  | [] => [OutStr ("Список номеров пуст." ++ nl)%string]
  | _ :: _ => printAllHeader ++ printAll_loop (rooms st)
  end.

(** *** [main] *)

(** [what()] of a hotel exception. *)
Definition what (e : HotelException) : string :=
  match e with
  | InvalidValueException w => w
  | DuplicateRoomException w => w
  | EmptyRoomListException w => w
  end.

Definition menuText : list Out :=
  [OutStr (nl ++ "===== МЕНЮ СИСТЕМЫ ГОСТИНИЦЫ =====" ++ nl)%string;
   OutStr ("1. Добавить информацию о номере" ++ nl)%string;
   OutStr ("2. Показать все номера" ++ nl)%string;
   OutStr ("3. Вычислить среднюю стоимость проживания (с учётом скидок)" ++ nl)%string;
   OutStr ("0. Выход" ++ nl)%string;
   OutStr ("===================================" ++ nl)%string].

Definition promptChoice : string := "Ваш выбор: ".
Definition promptNumber : string := "Введите обозначение номера (например 101, A-12): ".
Definition promptBaseCost : string := "Введите базовую стоимость за ночь: ".
Definition promptDiscount : string :=
  "Введите процент скидки на проживание (0 если нет, <100): ".

(** The handler of [HotelException] in [main]. *)
Definition reportHotelException (e : HotelException) : list Out :=
  [OutStr "Ошибка: "; OutStr (what e); OutChar "010"%char].

(** How a run of [main] ends. *)
Inductive MainRun : Type :=
| Exits (code : Z) (hotel : State) (c : Console)
| Aborts (c : Console)
| RunsForever
| OutOfFuel.

Section Main.

Variable extractDouble : string -> option float.

(** The loop of [main]; [fuel] bounds the number of rounds.  The choice is
    read outside the [try] block, so an exception of [inputMenuChoice]
    leaves [main]. *)
Fixpoint mainLoop (fuel : nat) (hotel : State) (c : Console) : MainRun :=
  match fuel with
  | O => OutOfFuel
  | S fuel' =>
      match inputMenuChoice promptChoice 0 3 (write c menuText) with
      | MenuHangs => RunsForever
      | ThrowsOutOfRange c1 => Aborts c1
      | Chosen choice c1 =>
          if (choice =? 0)%Z then
            Exits 0 hotel (write c1 [OutStr ("Выход из программы." ++ nl)%string])
          else if (choice =? 1)%Z then
            match inputNonEmptyString promptNumber c1 with
            | Hangs => RunsForever
            | Got number c2 =>
                match inputPositiveDouble extractDouble promptBaseCost c2 with
                | Hangs => RunsForever
                | Got baseCost c3 =>
                    match inputNonNegativeDouble extractDouble promptDiscount c3 with
                    | Hangs => RunsForever
                    | Got discount c4 =>
                        match addRoom number baseCost discount hotel with
                        | (inr _, hotel') =>
                            mainLoop fuel' hotel'
                              (write c4 [OutStr ("Информация о номере добавлена." ++ nl)%string])
                        | (inl e, hotel') =>
                            mainLoop fuel' hotel' (write c4 (reportHotelException e))
                        end
                    end
                end
            end
          else if (choice =? 2)%Z then
            mainLoop fuel' hotel (write c1 (printAll hotel))
          else if (choice =? 3)%Z then
            match calculateAverageCost hotel with
            | (inr avg, hotel') =>
                mainLoop fuel' hotel'
                  (write c1 [OutManip Fixed; OutManip (Setprecision 2);
                             OutStr "Средняя стоимость проживания (после скидок): ";
                             OutDouble avg; OutChar "010"%char])
            | (inl e, hotel') => mainLoop fuel' hotel' (write c1 (reportHotelException e))
            end
          else mainLoop fuel' hotel c1
      end
  end.

(** [main] on an input: every round reads at least one line, so one round
    more than there are lines is fuel enough. *)
Definition main (input : list string) : MainRun :=
  mainLoop (S (List.length input)) emptyHotel (mkConsole input []).

End Main.

End Console.
Export Console.

(** ** Vocabulary of the console readers *)

(** Every character of [s] belongs to [chars]. *)
Fixpoint allIn (chars s : string) : bool :=
  match s with
  | EmptyString => true
  | String c s' => contains chars c && allIn chars s'
  end.

(** The lines the readers pass over. *)

(** [inputNonEmptyString] rejects the lines without a character to keep. *)
Definition rejectedLabel (line : string) : bool := allIn blanks line.

(** [inputPositiveDouble] passes over white space, and rejects what is not a
    number, what compares at most 0 and what compares above 1000000. *)
Definition rejectedBaseCost (extractDouble : string -> option float) (line : string) : bool :=
  allSpace line ||
  match extractDouble line with
  | None => true
  | Some x => (x <=? 0)%float || (1000000 <? x)%float
  end.

(** [inputNonNegativeDouble] passes over white space, and rejects what is not
    a number, what compares below 0 and what compares at least 100. *)
Definition rejectedDiscount (extractDouble : string -> option float) (line : string) : bool :=
  allSpace line ||
  match extractDouble line with
  | None => true
  | Some x => (x <? 0)%float || (100 <=? x)%float
  end.

(** [inputMenuChoice] rejects blank lines, lines that are not all digits and
    numbers that fit an [int] but not the range. *)
Definition rejectedChoice (low high : Z) (line : string) : bool :=
  match trimmed line with
  | None => true
  | Some s =>
      negb (all_of_isdigit s) ||
      ((decimalValue s 0 <=? INT_MAX)%Z &&
       ((decimalValue s 0 <? low)%Z || (high <? decimalValue s 0)%Z))
  end.


(** ** Vocabulary of the conversion of a count *)

(** A binary64 value that is exactly the integer [n]: the mantissa and the
    integer are compared on the scale of the smallest exponent. *)
Definition representsInteger (x : spec_float) (n : Z) : Prop :=
  match x with
  | S754_zero _ => n = 0%Z
  | S754_finite s m e =>
      (-1074 <= e)%Z /\ (cond_Zopp s (Zpos m) * 2 ^ (e + 1074) = n * 2 ^ 1074)%Z
  | _ => False
  end.

(** ** Rounds of the menu *)

Section Rounds.

Local Open Scope list_scope.

Variable extractDouble : string -> option float.

(** One pass through the body of the loop of [main] that reaches its end:
    the hotel and the console before the menu is written, and at the end of
    the body.  The passes that leave the loop (the choice 0, the exception
    of [inputMenuChoice], a reader that never returns) are not rounds. *)
Inductive round : State -> Console -> State -> Console -> Prop :=
| round_add (hotel : State) (c c1 c2 c3 c4 : Console) (number : string)
    (baseCost discount : float) :
    inputMenuChoice promptChoice 0 3 (write c menuText) = Chosen 1 c1 ->
    inputNonEmptyString promptNumber c1 = Got number c2 ->
    inputPositiveDouble extractDouble promptBaseCost c2 = Got baseCost c3 ->
    inputNonNegativeDouble extractDouble promptDiscount c3 = Got discount c4 ->
    round hotel c
      (snd (addRoom number baseCost discount hotel))
      (write c4
         match fst (addRoom number baseCost discount hotel) with
         | inr _ => [OutStr ("Информация о номере добавлена." ++ nl)%string]
         | inl e => reportHotelException e
         end)
| round_list (hotel : State) (c c1 : Console) :
    inputMenuChoice promptChoice 0 3 (write c menuText) = Chosen 2 c1 ->
    round hotel c hotel (write c1 (printAll hotel))
| round_average (hotel : State) (c c1 : Console) :
    inputMenuChoice promptChoice 0 3 (write c menuText) = Chosen 3 c1 ->
    round hotel c
      (snd (calculateAverageCost hotel))
      (write c1
         match fst (calculateAverageCost hotel) with
         | inr avg => [OutManip Fixed; OutManip (Setprecision 2);
                       OutStr "Средняя стоимость проживания (после скидок): ";
                       OutDouble avg; OutChar "010"%char]
         | inl e => reportHotelException e
         end)
| round_other (hotel : State) (c c1 : Console) (choice : Z) :
    inputMenuChoice promptChoice 0 3 (write c menuText) = Chosen choice c1 ->
    choice <> 0%Z -> choice <> 1%Z -> choice <> 2%Z -> choice <> 3%Z ->
    round hotel c hotel c1.

(** Any number of rounds, one after the other. *)
Inductive rounds : State -> Console -> State -> Console -> Prop :=
| rounds_none (hotel : State) (c : Console) : rounds hotel c hotel c
| rounds_more (hotel : State) (c : Console) (hotel1 : State) (c1 : Console)
    (hotel2 : State) (c2 : Console) :
    round hotel c hotel1 c1 -> rounds hotel1 c1 hotel2 c2 -> rounds hotel c hotel2 c2.

(** What a run from a hotel and a console on went through to end as [r]:
    rounds up to a pass of the loop body in which
    - the choice read is 0, for a return, whose code is 0 and whose console
      has the farewell written after the choice;
    - [inputMenuChoice] throws, for an abort;
    - the lines left are all rejected by one of the four readers in its
      turn, for a run without end. *)
Definition endsAs (hotel : State) (c : Console) (r : MainRun) : Prop :=
  match r with
  | Exits code hotel' c' =>
      code = 0%Z /\
      exists c0 c1,
        rounds hotel c hotel' c0 /\
        inputMenuChoice promptChoice 0 3 (write c0 menuText) = Chosen 0 c1 /\
        c' = write c1 [OutStr ("Выход из программы." ++ nl)%string]
  | Aborts c' =>
      exists hotel' c0,
        rounds hotel c hotel' c0 /\
        inputMenuChoice promptChoice 0 3 (write c0 menuText) = ThrowsOutOfRange c'
  | RunsForever =>
      exists hotel' c0,
        rounds hotel c hotel' c0 /\
        (forallb (rejectedChoice 0 3) (cin c0) = true \/
         exists c1,
           inputMenuChoice promptChoice 0 3 (write c0 menuText) = Chosen 1 c1 /\
           (forallb rejectedLabel (cin c1) = true \/
            exists number c2,
              inputNonEmptyString promptNumber c1 = Got number c2 /\
              (forallb (rejectedBaseCost extractDouble) (cin c2) = true \/
               exists baseCost c3,
                 inputPositiveDouble extractDouble promptBaseCost c2 = Got baseCost c3 /\
                 forallb (rejectedDiscount extractDouble) (cin c3) = true)))
  | OutOfFuel => False
  end.

End Rounds.

(** Unfolds a member function down to its checks. *)
Ltac run_hotel :=
  unfold addRoom, calculateAverageCost, existsRoomNumber, getRooms, bind, ret,
    throw, construct, push_back, writeCerr; simpl.

(** Scenarios of the specification, run on the embedding. *)

Example scenario_average :
  let st1 := snd (addRoom "101" 100 0 emptyHotel) in
  let st2 := snd (addRoom "102" 200 50 st1) in
  fst (calculateAverageCost st2) = inr 100%float.
Proof. vm_compute. reflexivity. Qed.

Example scenario_duplicate :
  let st1 := snd (addRoom "101" 100 0 emptyHotel) in
  let r := addRoom "101" 150 0 st1 in
  failsWith isDuplicateRoom (fst r) /\
  map (fun x => (getNumber x, getBaseCost x)) (rooms (snd r)) = [("101", 100%float)].
Proof. vm_compute. split; reflexivity. Qed.

Example scenario_listing :
  let st1 := snd (addRoom "A" 50 20 emptyHotel) in
  map (fun x => (getNumber x, getBaseCost x, getFinalCost x)) (rooms st1)
  = [("A", 50%float, 40%float)].
Proof. vm_compute. reflexivity. Qed.

(** ** Running a member function *)

(** The duplicate check sees exactly the labels stored. *)
Lemma existsRoomNumber_loop_In (rs : list RoomBase) (num : string) :
  existsRoomNumber_loop rs num = true <-> In num (map getNumber rs).
Proof.
  induction rs as [|r rs IH]; simpl.
  - split; [discriminate | tauto].
  - destruct (String.eqb (getNumber r) num) eqn:E.
    + apply String.eqb_eq in E. tauto.
    + apply String.eqb_neq in E. rewrite IH.
      split; [tauto | intros [H|H]; [contradiction | assumption]].
Qed.

Section AddRoomOutcome.

Variable st : State.
Variables (number : string) (baseCost discountPercent : float).

Let out := addRoom number baseCost discountPercent st.

(** Every run of [addRoom] either throws with [rooms] as it was, or returns
    after appending one room carrying the arguments of the call. *)
Lemma addRoom_outcome :
  (exists e, fst out = inl e /\ rooms (snd out) = rooms st) \/
  (fst out = inr tt /\
   existsRoomNumber_loop (rooms st) number = false /\
   exists strat, rooms (snd out) = (rooms st ++ [mkRoomBase number baseCost strat])%list).
Proof.
  subst out. unfold addRoom, bind, existsRoomNumber, getRooms, ret, throw, construct, push_back.
  destruct (50 <? String.length number)%nat; simpl;
    (destruct (existsRoomNumber_loop (rooms st) number) eqn:Edup; simpl;
     [ left; eexists; split; reflexivity | ]);
    (destruct (discountPercent =? 0)%float; simpl;
     [ | unfold newPercentageDiscountStrategy;
         destruct (discountPercent <? 0)%float; simpl; [left; eexists; split; reflexivity|];
         destruct (100 <=? discountPercent)%float; simpl; [left; eexists; split; reflexivity|] ]);
    unfold newRoomBase;
    (destruct (String.length number =? 0)%nat; simpl; [left; eexists; split; reflexivity|]);
    (destruct (baseCost <=? 0)%float; simpl; [left; eexists; split; reflexivity|]);
    right; repeat split; eexists; reflexivity.
Qed.

End AddRoomOutcome.

(** ** Comparisons of binary64 values *)

Section FloatOrder.

Local Open Scope float_scope.

(** Swapping the operands of the IEEE comparison mirrors its outcome; an
    unordered pair (a NaN operand) stays unordered. *)
Lemma SFcompare_swap (x y : spec_float) :
  SFcompare y x = option_map CompOpp (SFcompare x y).
Proof.
  destruct x as [sx|sx| |sx mx ex], y as [sy|sy| |sy my ey]; simpl;
    try reflexivity; try (destruct sx; reflexivity); try (destruct sy; reflexivity);
    try (destruct sx, sy; reflexivity).
  destruct sx, sy; simpl; try reflexivity;
    rewrite (Z.compare_antisym ex ey); destruct (ex ?= ey)%Z; simpl; try reflexivity;
    rewrite (Pos.compare_cont_antisym mx my Eq); simpl;
    try rewrite CompOpp_involutive; reflexivity.
Qed.

Lemma ltb_not_geb (x y : float) : (x <? y) = true -> (y <=? x) = false.
Proof.
  rewrite ltb_spec, leb_spec. unfold SFltb, SFleb.
  rewrite (SFcompare_swap (Prim2SF x) (Prim2SF y)).
  destruct (SFcompare (Prim2SF x) (Prim2SF y)) as [[]|]; simpl; congruence.
Qed.

Lemma leb_not_gtb (x y : float) : (x <=? y) = true -> (y <? x) = false.
Proof.
  rewrite ltb_spec, leb_spec. unfold SFltb, SFleb.
  rewrite (SFcompare_swap (Prim2SF x) (Prim2SF y)).
  destruct (SFcompare (Prim2SF x) (Prim2SF y)) as [[]|]; simpl; congruence.
Qed.

End FloatOrder.

(** ** Rounding in binary64 *)

Section Binary64Rounding.

Local Open Scope Z_scope.

Local Abbreviation fexp := (SpecFloat.fexp prec emax).

Lemma fexp_eq (e : Z) : fexp e = Z.max (e - 53) (-1074).
Proof. reflexivity. Qed.

Lemma fexp_mono (a b : Z) : a <= b -> fexp a <= fexp b.
Proof. rewrite !fexp_eq. lia. Qed.

(** *** Binary digits *)

Lemma digits2_pos_bounds (m : positive) :
  2 ^ (Zpos (digits2_pos m) - 1) <= Zpos m < 2 ^ Zpos (digits2_pos m).
Proof.
  induction m as [m IH|m IH|]; simpl digits2_pos.
  - rewrite Pos2Z.inj_succ.
    replace (Z.succ (Zpos (digits2_pos m)) - 1)
      with (Z.succ (Zpos (digits2_pos m) - 1)) by lia.
    rewrite !Z.pow_succ_r by lia. lia.
  - rewrite Pos2Z.inj_succ.
    replace (Z.succ (Zpos (digits2_pos m)) - 1)
      with (Z.succ (Zpos (digits2_pos m) - 1)) by lia.
    rewrite !Z.pow_succ_r by lia. lia.
  - simpl. lia.
Qed.

Lemma Zdigits2_bounds (m : Z) :
  0 < m -> 2 ^ (Zdigits2 m - 1) <= m < 2 ^ Zdigits2 m.
Proof.
  destruct m as [|p|p]; try lia. intros _. apply digits2_pos_bounds.
Qed.

Lemma Zdigits2_pos (m : Z) : 0 < m -> 0 < Zdigits2 m.
Proof. destruct m; simpl; lia. Qed.

Lemma Zdigits2_nonneg (m : Z) : 0 <= Zdigits2 m.
Proof. destruct m; simpl; lia. Qed.

(** A value below [2 ^ k] has at most [k] digits. *)
Lemma Zdigits2_le (m k : Z) : 0 <= m -> 0 <= k -> m < 2 ^ k -> Zdigits2 m <= k.
Proof.
  intros Hm Hk Hlt. destruct (Z.eq_dec m 0) as [->|Hnz]; [simpl; lia|].
  destruct (Zdigits2_bounds m) as [Hlo _]; [lia|].
  assert (H : 2 ^ (Zdigits2 m - 1) < 2 ^ k) by lia.
  apply Z.pow_lt_mono_r_iff in H; lia.
Qed.

(** A value from [2 ^ k] on has more than [k] digits. *)
Lemma Zdigits2_gt (m k : Z) : 0 <= k -> 2 ^ k <= m -> k < Zdigits2 m.
Proof.
  intros Hk Hle. assert (0 < m) by (pose proof (Z.pow_pos_nonneg 2 k); lia).
  destruct (Zdigits2_bounds m) as [_ Hhi]; [lia|].
  assert (H0 : 2 ^ k < 2 ^ Zdigits2 m) by lia.
  apply Z.pow_lt_mono_r_iff in H0; [lia | lia | apply Zdigits2_nonneg].
Qed.

(** *** Shifting a mantissa to the right *)

Lemma shr_1_spec (mrs : shr_record) :
  0 <= shr_m mrs ->
  shr_m (shr_1 mrs) = shr_m mrs / 2 /\
  inexact (shr_1 mrs) = inexact mrs || negb (shr_m mrs mod 2 =? 0).
Proof.
  destruct mrs as [m r s]. unfold inexact. simpl. intros Hm.
  destruct m as [|[p|p|]|p]; try lia; simpl shr_m; simpl shr_r; simpl shr_s.
  - split; [reflexivity|]. simpl. now rewrite orb_false_r.
  - split.
    + rewrite Pos2Z.inj_xI. apply (Z.div_unique _ 2 _ 1); lia.
    + replace (Zpos p~1 mod 2) with 1.
      * simpl. rewrite orb_true_r. reflexivity.
      * rewrite Pos2Z.inj_xI. apply (Z.mod_unique _ 2 (Zpos p) 1); lia.
  - split.
    + rewrite Pos2Z.inj_xO. apply (Z.div_unique _ 2 _ 0); lia.
    + replace (Zpos p~0 mod 2) with 0.
      * simpl. rewrite orb_false_r. reflexivity.
      * rewrite Pos2Z.inj_xO. apply (Z.mod_unique _ 2 (Zpos p) 0); lia.
  - split; [reflexivity|]. simpl. rewrite orb_true_r. reflexivity.
Qed.

Lemma shifted_0 (a : shr_record) : shifted 0 a a.
Proof.
  unfold shifted. simpl. rewrite Z.div_1_r, Z.mod_1_r. simpl.
  now rewrite orb_false_r.
Qed.

Lemma shifted_nonneg (k : Z) (a b : shr_record) :
  0 <= k -> 0 <= shr_m a -> shifted k a b -> 0 <= shr_m b.
Proof.
  intros Hk Ha [-> _]. apply Z.div_pos; [assumption | apply Z.pow_pos_nonneg; lia].
Qed.

Lemma shifted_trans (k1 k2 : Z) (a b c : shr_record) :
  0 <= k1 -> 0 <= k2 -> shifted k1 a b -> shifted k2 b c -> shifted (k1 + k2) a c.
Proof.
  intros Hk1 Hk2 [Hm1 Hi1] [Hm2 Hi2].
  assert (P1 : 0 < 2 ^ k1) by (apply Z.pow_pos_nonneg; lia).
  assert (P2 : 0 < 2 ^ k2) by (apply Z.pow_pos_nonneg; lia).
  unfold shifted. rewrite Z.pow_add_r by assumption. split.
  - rewrite Hm2, Hm1. apply Z.div_div; lia.
  - rewrite Hi2, Hi1, Hm1, <- orb_assoc. f_equal.
    rewrite Z.rem_mul_r by lia.
    pose proof (Z.mod_pos_bound (shr_m a) (2 ^ k1) P1) as B1.
    pose proof (Z.mod_pos_bound (shr_m a / 2 ^ k1) (2 ^ k2) P2) as B2.
    destruct (Z.eqb_spec (shr_m a mod 2 ^ k1) 0) as [E1|E1];
      destruct (Z.eqb_spec (shr_m a / 2 ^ k1 mod 2 ^ k2) 0) as [E2|E2];
      simpl; symmetry.
    + apply negb_false_iff, Z.eqb_eq. rewrite E1, E2. lia.
    + apply negb_true_iff, Z.eqb_neq. nia.
    + apply negb_true_iff, Z.eqb_neq. nia.
    + apply negb_true_iff, Z.eqb_neq. nia.
Qed.

Lemma shifted_shr_1 (a : shr_record) : 0 <= shr_m a -> shifted 1 a (shr_1 a).
Proof. intros Ha. unfold shifted. change (2 ^ 1) with 2. now apply shr_1_spec. Qed.

Lemma shifted_iter_pos (p : positive) :
  forall a, 0 <= shr_m a -> shifted (Zpos p) a (SpecFloat.iter_pos shr_1 p a).
Proof.
  assert (Hp : forall q : positive, 0 <= Zpos q) by (intros; lia).
  induction p as [p IH|p IH|]; intros a Ha; simpl SpecFloat.iter_pos.
  - pose proof (shifted_shr_1 a Ha) as S1.
    pose proof (shifted_nonneg 1 _ _ Z.le_0_1 Ha S1) as N1.
    pose proof (IH _ N1) as S2.
    pose proof (shifted_nonneg _ _ _ (Hp p) N1 S2) as N2.
    pose proof (IH _ N2) as S3.
    replace (Zpos p~1) with (1 + Zpos p + Zpos p) by lia.
    eapply shifted_trans; [lia | lia | | exact S3].
    eapply shifted_trans; [lia | lia | exact S1 | exact S2].
  - pose proof (IH _ Ha) as S1.
    pose proof (shifted_nonneg _ _ _ (Hp p) Ha S1) as N1.
    pose proof (IH _ N1) as S2.
    replace (Zpos p~0) with (Zpos p + Zpos p) by lia.
    eapply shifted_trans; [lia | lia | exact S1 | exact S2].
  - now apply shifted_shr_1.
Qed.

(** [shr] shifts by [n] when [n] is positive and not at all otherwise. *)
Lemma shr_spec (a : shr_record) (e n : Z) :
  0 <= shr_m a ->
  shifted (Z.max 0 n) a (fst (shr a e n)) /\ snd (shr a e n) = e + Z.max 0 n.
Proof.
  intros Ha. destruct n as [|p|p]; simpl.
  - split; [apply shifted_0 | lia].
  - split; [now apply shifted_iter_pos | reflexivity].
  - split; [apply shifted_0 | lia].
Qed.

Lemma shr_record_of_loc_spec (m : Z) (l : location) :
  shr_m (shr_record_of_loc m l) = m /\
  inexact (shr_record_of_loc m l) = negb (isExact l).
Proof. destruct l as [|[]]; split; reflexivity. Qed.

(** Rounding to nearest keeps the mantissa or adds one to it, and adds one
    only where bits were lost. *)
Lemma round_nearest_even_cases (a : shr_record) :
  round_nearest_even (shr_m a) (loc_of_shr_record a) = shr_m a \/
  (round_nearest_even (shr_m a) (loc_of_shr_record a) = shr_m a + 1 /\ inexact a = true).
Proof.
  destruct a as [m [|] [|]]; unfold inexact; simpl; auto.
  destruct (Z.even m); auto.
Qed.

(** The anatomy of [binary_round_aux]: a shift, a rounding step, a second
    shift, and the packing of the result. *)
Lemma binary_round_aux_anatomy (sx : bool) (mx ex : Z) (lx : location) :
  0 <= mx ->
  let k1 := Z.max 0 (fexp (Zdigits2 mx + ex) - ex) in
  let e1 := ex + k1 in
  exists m1,
    (m1 = mx / 2 ^ k1 \/
     (m1 = mx / 2 ^ k1 + 1 /\ (isExact lx = false \/ mx mod 2 ^ k1 <> 0))) /\
    let k2 := Z.max 0 (fexp (Zdigits2 m1 + e1) - e1) in
    let e2 := e1 + k2 in
    let m2 := m1 / 2 ^ k2 in
    binary_round_aux prec emax sx mx ex lx =
    match m2 with
    | Z0 => S754_zero sx
    | Zpos m => if e2 <=? emax - prec then S754_finite sx m e2 else S754_infinity sx
    | Zneg _ => S754_nan
    end.
Proof.
  intros Hmx k1 e1. unfold binary_round_aux, shr_fexp.
  destruct (shr_record_of_loc_spec mx lx) as [Hm0 Hi0].
  destruct (shr_spec (shr_record_of_loc mx lx) ex (fexp (Zdigits2 mx + ex) - ex))
    as [[Hm1 Hi1] He1]; [lia|].
  fold k1 in Hm1, Hi1, He1.
  destruct (shr (shr_record_of_loc mx lx) ex (fexp (Zdigits2 mx + ex) - ex)) as [a e1'].
  simpl in Hm1, Hi1, He1. rewrite Hm0 in Hm1, Hi1. rewrite Hi0 in Hi1.
  fold e1 in He1. subst e1'.
  set (m1 := round_nearest_even (shr_m a) (loc_of_shr_record a)).
  assert (P1 : 0 < 2 ^ k1) by (apply Z.pow_pos_nonneg; lia).
  assert (Na : 0 <= shr_m a) by (rewrite Hm1; apply Z.div_pos; lia).
  exists m1. split.
  - destruct (round_nearest_even_cases a) as [H|[H Hin]]; fold m1 in H.
    + left. congruence.
    + right. split; [congruence|]. rewrite Hi1 in Hin.
      apply orb_true_iff in Hin. destruct Hin as [Hin|Hin].
      * left. now apply negb_true_iff in Hin.
      * right. apply negb_true_iff, Z.eqb_neq in Hin. exact Hin.
  - set (k2 := Z.max 0 (fexp (Zdigits2 m1 + e1) - e1)).
    set (e2 := e1 + k2). set (m2 := m1 / 2 ^ k2).
    assert (N1 : 0 <= m1).
    { destruct (round_nearest_even_cases a) as [H|[H _]]; fold m1 in H; lia. }
    destruct (shr_spec (shr_record_of_loc m1 loc_Exact) e1 (fexp (Zdigits2 m1 + e1) - e1))
      as [[Hm2 _] He2]; [simpl; lia|].
    fold k2 in Hm2, He2.
    destruct (shr (shr_record_of_loc m1 loc_Exact) e1 (fexp (Zdigits2 m1 + e1) - e1))
      as [b e2'].
    simpl in Hm2, He2. fold e2 in He2. fold m2 in Hm2. rewrite Hm2, He2. reflexivity.
Qed.

(** *** Canonical mantissas *)

Lemma bounded_canonical (m : positive) (e : Z) :
  bounded prec emax m e = true ->
  fexp (Zpos (digits2_pos m) + e) = e /\ e <= emax - prec.
Proof.
  unfold bounded, canonical_mantissa. intros H.
  apply andb_true_iff in H. destruct H as [H1 H2].
  apply Z.eqb_eq in H1. apply Z.leb_le in H2. now split.
Qed.

Lemma pow2_split (a b : Z) : 0 <= a -> 0 <= b -> 2 ^ (a + b) = 2 ^ a * 2 ^ b.
Proof. intros. now apply Z.pow_add_r. Qed.

(** *** Rounding never passes a representable bound *)

(** The mantissa [mx] at exponent [ex], with [lx] telling whether bits were
    already lost below it, stands for a real number in
    [[mx * 2^ex, (mx + 1) * 2^ex)].  If that number is at most the canonical
    value [my * 2^ey], so is its rounding. *)
Lemma binary_round_aux_upper (sx : bool) (mx ex : Z) (lx : location)
    (my : positive) (ey : Z) :
  0 <= mx ->
  ex <= fexp (Zdigits2 mx + ex) ->
  fexp (Zdigits2 mx + ex) <= ey ->
  bounded prec emax my ey = true ->
  mx <= Zpos my * 2 ^ (ey - ex) ->
  (isExact lx = false -> mx < Zpos my * 2 ^ (ey - ex)) ->
  binary_round_aux prec emax sx mx ex lx = S754_zero sx \/
  exists m2 e2,
    binary_round_aux prec emax sx mx ex lx = S754_finite sx m2 e2 /\
    (e2 < ey \/ (e2 = ey /\ Zpos m2 <= Zpos my)).
Proof.
  intros Hmx Hpre He1 Hy Hle Hlt.
  destruct (bounded_canonical _ _ Hy) as [Hcan Hmax].
  destruct (binary_round_aux_anatomy sx mx ex lx Hmx) as (m1 & Hm1 & Hres).
  cbv zeta in Hres.
  set (k1 := Z.max 0 (fexp (Zdigits2 mx + ex) - ex)) in *.
  set (e1 := ex + k1) in *.
  set (k2 := Z.max 0 (fexp (Zdigits2 m1 + e1) - e1)) in *.
  set (e2 := e1 + k2) in *.
  assert (Ek1 : k1 = fexp (Zdigits2 mx + ex) - ex) by (unfold k1; lia).
  assert (Ee1 : e1 = fexp (Zdigits2 mx + ex)) by (unfold e1; lia).
  assert (P1 : 0 < 2 ^ k1) by (apply Z.pow_pos_nonneg; lia).
  assert (P2 : 0 < 2 ^ k2) by (apply Z.pow_pos_nonneg; lia).
  set (Y1 := Zpos my * 2 ^ (ey - e1)).
  assert (EY : Zpos my * 2 ^ (ey - ex) = 2 ^ k1 * Y1).
  { unfold Y1. replace (ey - ex) with ((ey - e1) + k1) by lia.
    rewrite pow2_split by lia. ring. }
  rewrite EY in Hle, Hlt.
  assert (Hm : mx / 2 ^ k1 <= Y1) by (apply Z.div_le_upper_bound; assumption).
  assert (N0 : 0 <= mx / 2 ^ k1) by (apply Z.div_pos; lia).
  assert (B1 : 0 <= m1 <= Y1).
  { destruct Hm1 as [->|[-> Hin]]; [lia|].
    assert (mx / 2 ^ k1 < Y1); [|lia].
    apply Z.div_lt_upper_bound; [assumption|].
    destruct Hin as [Hin|Hin]; [auto|].
    assert (mx <> 2 ^ k1 * Y1); [|lia].
    intros E. apply Hin. rewrite E, Z.mul_comm. apply Z.mod_mul. lia. }
  assert (Dy : Zpos my < 2 ^ Zpos (digits2_pos my)) by apply digits2_pos_bounds.
  assert (He2 : e2 <= ey).
  { unfold e2, k2.
    destruct (Z.max_spec 0 (fexp (Zdigits2 m1 + e1) - e1)) as [[_ ->]|[_ ->]]; [|lia].
    replace (e1 + (fexp (Zdigits2 m1 + e1) - e1)) with (fexp (Zdigits2 m1 + e1)) by lia.
    apply Z.le_trans with (fexp (Zpos (digits2_pos my) + ey)); [apply fexp_mono | lia].
    assert (Zdigits2 m1 <= Zpos (digits2_pos my) + (ey - e1)); [|lia].
    apply Zdigits2_le; [lia | lia |].
    rewrite pow2_split by lia.
    assert (0 < 2 ^ (ey - e1)) by (apply Z.pow_pos_nonneg; lia).
    unfold Y1 in B1. nia. }
  assert (B2 : 0 <= m1 / 2 ^ k2 <= Zpos my * 2 ^ (ey - e2)).
  { split; [apply Z.div_pos; lia|].
    apply Z.div_le_upper_bound; [assumption|].
    replace (2 ^ k2 * (Zpos my * 2 ^ (ey - e2))) with Y1; [lia|].
    unfold Y1. replace (ey - e1) with ((ey - e2) + k2) by (unfold e2; lia).
    rewrite pow2_split by (unfold e2 in He2; lia). ring. }
  rewrite Hres. destruct (m1 / 2 ^ k2) as [|m2|m2] eqn:Em2; [left; reflexivity | | lia].
  right. exists m2, e2. split.
  - destruct (Z.leb_spec e2 (emax - prec)); [reflexivity | lia].
  - destruct (Z.eq_dec e2 ey) as [E|E]; [right | left; lia].
    split; [assumption|]. rewrite E, Z.sub_diag in B2. simpl in B2. lia.
Qed.

(** *** Rounding stays above the power of two below the value *)

(** A positive mantissa of [d] digits at exponent [ex] stands for a value of
    at least [2 ^ (d - 1 + ex)].  Unless that is below the smallest exponent,
    the rounding is not flushed to zero and is at least that power. *)
Lemma binary_round_aux_lower (sx : bool) (mx ex : Z) (lx : location) :
  0 < mx ->
  -1074 < Zdigits2 mx + ex ->
  binary_round_aux prec emax sx mx ex lx = S754_infinity sx \/
  exists m2 e2,
    binary_round_aux prec emax sx mx ex lx = S754_finite sx m2 e2 /\
    ex <= e2 /\ 2 ^ (Zdigits2 mx - 1) <= Zpos m2 * 2 ^ (e2 - ex).
Proof.
  intros Hmx Hbig.
  destruct (binary_round_aux_anatomy sx mx ex lx) as (m1 & Hm1 & Hres); [lia|].
  cbv zeta in Hres.
  set (k1 := Z.max 0 (fexp (Zdigits2 mx + ex) - ex)) in *.
  set (e1 := ex + k1) in *.
  set (k2 := Z.max 0 (fexp (Zdigits2 m1 + e1) - e1)) in *.
  set (e2 := e1 + k2) in *.
  assert (P1 : 0 < 2 ^ k1) by (apply Z.pow_pos_nonneg; lia).
  assert (P2 : 0 < 2 ^ k2) by (apply Z.pow_pos_nonneg; lia).
  destruct (Zdigits2_bounds mx Hmx) as [Dlo _].
  pose proof (Zdigits2_pos mx Hmx) as Dpos.
  set (a := Zdigits2 mx - 1 - k1).
  assert (Ha : 0 <= a) by (unfold a, k1; rewrite fexp_eq; lia).
  assert (Hm : 2 ^ a <= mx / 2 ^ k1).
  { apply Z.div_le_lower_bound; [assumption|].
    rewrite <- pow2_split by lia.
    replace (k1 + a) with (Zdigits2 mx - 1) by (unfold a; lia). assumption. }
  assert (B1 : 2 ^ a <= m1) by (destruct Hm1 as [->|[-> _]]; lia).
  assert (Pa : 0 < 2 ^ a) by (apply Z.pow_pos_nonneg; lia).
  assert (D1 : a < Zdigits2 m1) by (apply Zdigits2_gt; lia).
  assert (Hk2 : k2 <= Zdigits2 m1 - 1).
  { unfold k2. rewrite fexp_eq. unfold e1, a in *. lia. }
  destruct (Zdigits2_bounds m1 ltac:(lia)) as [D1lo _].
  assert (B2 : 1 <= m1 / 2 ^ k2).
  { apply Z.div_le_lower_bound; [assumption|].
    assert (2 ^ k2 <= 2 ^ (Zdigits2 m1 - 1)) by (apply Z.pow_le_mono_r; lia). lia. }
  assert (B3 : 2 ^ (Zdigits2 mx - 1) <= (m1 / 2 ^ k2) * 2 ^ (e2 - ex)).
  { replace (e2 - ex) with (k1 + k2) by (unfold e2, e1; lia).
    destruct (Z_le_gt_dec k2 a) as [Hc|Hc].
    - assert (2 ^ (a - k2) <= m1 / 2 ^ k2).
      { apply Z.div_le_lower_bound; [assumption|].
        rewrite <- pow2_split by lia. replace (k2 + (a - k2)) with a by lia. assumption. }
      replace (Zdigits2 mx - 1) with ((a - k2) + (k1 + k2)) by (unfold a; lia).
      rewrite (pow2_split (a - k2)) by lia.
      apply Z.mul_le_mono_nonneg_r; [apply Z.pow_nonneg; lia | assumption].
    - assert (2 ^ (Zdigits2 mx - 1) <= 2 ^ (k1 + k2))
        by (apply Z.pow_le_mono_r; unfold a in *; lia).
      assert (0 < 2 ^ (k1 + k2)) by (apply Z.pow_pos_nonneg; lia). nia. }
  rewrite Hres. destruct (m1 / 2 ^ k2) as [|m2|m2]; [lia | | lia].
  destruct (e2 <=? emax - prec); [right | left; reflexivity].
  exists m2, e2. split; [reflexivity|]. split; [unfold e2, e1; lia | assumption].
Qed.

(** Whatever is rounded, the outcome of rounding a non-negative mantissa is
    a zero, a finite value or an infinity of the sign asked for. *)
Lemma binary_round_aux_sign (sx : bool) (mx ex : Z) (lx : location) :
  0 <= mx ->
  binary_round_aux prec emax sx mx ex lx = S754_zero sx \/
  (exists m2 e2, binary_round_aux prec emax sx mx ex lx = S754_finite sx m2 e2) \/
  binary_round_aux prec emax sx mx ex lx = S754_infinity sx.
Proof.
  intros Hmx.
  destruct (binary_round_aux_anatomy sx mx ex lx Hmx) as (m1 & Hm1 & Hres).
  cbv zeta in Hres. rewrite Hres.
  set (k1 := Z.max 0 (fexp (Zdigits2 mx + ex) - ex)) in *.
  set (k2 := Z.max 0 _).
  assert (0 <= mx / 2 ^ k1) by (apply Z.div_pos; [lia | apply Z.pow_pos_nonneg; lia]).
  assert (0 <= m1 / 2 ^ k2).
  { apply Z.div_pos; [destruct Hm1 as [->|[-> _]]; lia | apply Z.pow_pos_nonneg; lia]. }
  destruct (m1 / 2 ^ k2) as [|m2|m2]; [auto | | lia].
  destruct (_ <=? _); eauto.
Qed.

(** *** Scaling by a power of two *)

Lemma Zdigits2_mul_pow2 (m k : Z) :
  0 < m -> 0 <= k -> Zdigits2 (m * 2 ^ k) = Zdigits2 m + k.
Proof.
  intros Hm Hk. destruct (Zdigits2_bounds m Hm) as [Lo Hi].
  pose proof (Zdigits2_pos m Hm) as Dp.
  assert (Pk : 0 < 2 ^ k) by (apply Z.pow_pos_nonneg; lia).
  apply Z.le_antisymm.
  - apply Zdigits2_le; [nia | lia |]. rewrite pow2_split by lia. nia.
  - assert (Zdigits2 m - 1 + k < Zdigits2 (m * 2 ^ k)); [|lia].
    apply Zdigits2_gt; [lia|]. rewrite pow2_split by lia. nia.
Qed.

Lemma Pos_iter_xO (m d : positive) : Zpos (Pos.iter xO m d) = Zpos m * 2 ^ Zpos d.
Proof.
  induction d as [|d IH] using Pos.peano_ind.
  - simpl. lia.
  - rewrite Pos.iter_succ, Pos2Z.inj_xO, IH, Pos2Z.inj_succ.
    rewrite Z.pow_succ_r by apply Pos2Z.is_nonneg. ring.
Qed.

(** [shl_align] lowers the exponent to [ex'] when that is below [ex], and
    keeps the value. *)
Lemma shl_align_spec (mx : positive) (ex ex' : Z) :
  let k := Z.max 0 (ex - ex') in
  Zpos (fst (shl_align mx ex ex')) = Zpos mx * 2 ^ k /\
  snd (shl_align mx ex ex') = ex - k.
Proof.
  unfold shl_align. destruct (ex' - ex) as [|d|d] eqn:E; cbv zeta; cbn [fst snd].
  - replace (Z.max 0 (ex - ex')) with 0 by lia. rewrite Z.pow_0_r. lia.
  - replace (Z.max 0 (ex - ex')) with 0 by lia. rewrite Z.pow_0_r. lia.
  - replace (Z.max 0 (ex - ex')) with (Zpos d) by lia.
    split; [apply Pos_iter_xO | lia].
Qed.

(** *** Order of canonical values *)

Lemma canonical_facts (m : positive) (e : Z) :
  bounded prec emax m e = true ->
  Zpos (digits2_pos m) <= 53 /\ -1074 <= e <= 971 /\
  (Zpos (digits2_pos m) = 53 \/ e = -1074) /\
  Zpos m < 2 ^ 53.
Proof.
  intros H. destruct (bounded_canonical _ _ H) as [Hc Hm].
  rewrite fexp_eq in Hc. change (emax - prec) with 971 in Hm.
  assert (D : Zpos (digits2_pos m) <= 53) by lia.
  repeat split; try lia.
  destruct (digits2_pos_bounds m) as [_ Hi].
  assert (2 ^ Zpos (digits2_pos m) <= 2 ^ 53) by (apply Z.pow_le_mono_r; lia). lia.
Qed.

Lemma SFleb_finite_pos (m1 : positive) (e1 : Z) (m2 : positive) (e2 : Z) :
  SFleb (S754_finite false m1 e1) (S754_finite false m2 e2) = true <->
  (e1 < e2 \/ (e1 = e2 /\ Zpos m1 <= Zpos m2)).
Proof.
  unfold SFleb, SFcompare. change (Pos.compare_cont Eq m1 m2) with (Zpos m1 ?= Zpos m2).
  destruct (Z.compare_spec e1 e2) as [E|E|E].
  - destruct (Z.compare_spec (Zpos m1) (Zpos m2)) as [F|F|F]; split; intros H;
      try discriminate; try reflexivity; try (right; split; lia); lia.
  - split; [left; assumption | reflexivity].
  - split; [discriminate | lia].
Qed.

Lemma SFltb_finite_pos (m1 : positive) (e1 : Z) (m2 : positive) (e2 : Z) :
  SFltb (S754_finite false m1 e1) (S754_finite false m2 e2) = true <->
  (e1 < e2 \/ (e1 = e2 /\ Zpos m1 < Zpos m2)).
Proof.
  unfold SFltb, SFcompare. change (Pos.compare_cont Eq m1 m2) with (Zpos m1 ?= Zpos m2).
  destruct (Z.compare_spec e1 e2) as [E|E|E].
  - destruct (Z.compare_spec (Zpos m1) (Zpos m2)) as [F|F|F]; split; intros H;
      try discriminate; try reflexivity; try (right; split; lia); lia.
  - split; [left; assumption | reflexivity].
  - split; [discriminate | lia].
Qed.

(** *** Multiplication by a factor of at most one *)

Lemma SF64mul_le_left (mb : positive) (eb : Z) (f : spec_float) :
  bounded prec emax mb eb = true ->
  valid_binary f = true ->
  SFleb f SF_one = true ->
  SFleb (SF64mul (S754_finite false mb eb) f) (S754_finite false mb eb) = true.
Proof.
  intros Hb Hf Hle. unfold SF64mul, SFmul. destruct f as [s|s| |s mf ef].
  - reflexivity.
  - destruct s; [reflexivity | discriminate].
  - discriminate.
  - destruct s; cbn [xorb].
    + destruct (binary_round_aux_sign true (Zpos (mb * mf)) (eb + ef) loc_Exact)
        as [->|[(m2 & e2 & ->)| ->]]; [lia | reflexivity..].
    + apply SFleb_finite_pos in Hle. cbn [valid_binary] in Hf.
      destruct (canonical_facts _ _ Hb) as (Db & Eb & Cb & Mb).
      destruct (canonical_facts _ _ Hf) as (Df & Ef & Cf & Mf).
      destruct (digits2_pos_bounds mb) as [Lb Ub].
      destruct (digits2_pos_bounds mf) as [Lf Uf].
      assert (Hef : ef <= -52) by lia.
      assert (Hmf : Zpos mf <= 2 ^ (- ef)).
      { destruct Hle as [Hlt|[-> Hm]]; [|change (2 ^ (- -52)) with 4503599627370496; lia].
        assert (2 ^ 53 <= 2 ^ (- ef)) by (apply Z.pow_le_mono_r; lia). lia. }
      assert (Pe : 0 < 2 ^ (- ef)) by (apply Z.pow_pos_nonneg; lia).
      assert (Hprod : Zpos (mb * mf) <= Zpos mb * 2 ^ (- ef)) by (rewrite Pos2Z.inj_mul; nia).
      assert (Dhi : Zdigits2 (Zpos (mb * mf)) <= Zpos (digits2_pos mb) + (- ef)).
      { apply Zdigits2_le; [lia | lia |]. rewrite pow2_split by lia. nia. }
      assert (Dlo : Zpos (digits2_pos mb) + Zpos (digits2_pos mf) - 2 < Zdigits2 (Zpos (mb * mf))).
      { apply Zdigits2_gt; [lia|].
        replace (Zpos (digits2_pos mb) + Zpos (digits2_pos mf) - 2)
          with ((Zpos (digits2_pos mb) - 1) + (Zpos (digits2_pos mf) - 1)) by lia.
        rewrite pow2_split, Pos2Z.inj_mul by lia.
        apply Z.mul_le_mono_nonneg; try assumption; apply Z.pow_nonneg; lia. }
      destruct (bounded_canonical _ _ Hb) as [Hcb _].
      destruct (binary_round_aux_upper false (Zpos (mb * mf)) (eb + ef) loc_Exact mb eb)
        as [->|(m2 & e2 & -> & Hord)]; try assumption.
      * lia.
      * rewrite fexp_eq. lia.
      * rewrite <- Hcb at 2. apply fexp_mono. lia.
      * replace (eb - (eb + ef)) with (- ef) by lia. assumption.
      * discriminate.
      * reflexivity.
      * apply SFleb_finite_pos. assumption.
Qed.

(** *** Multiplication by a factor of at most [1 - 2^-52] *)

Lemma bounded_intro (m : positive) (e : Z) :
  Zpos (digits2_pos m) <= 53 -> -1074 <= e <= 971 ->
  Zpos (digits2_pos m) = 53 \/ e = -1074 ->
  bounded prec emax m e = true.
Proof.
  intros Hd He Hc. unfold bounded, canonical_mantissa.
  apply andb_true_iff. split.
  - apply Z.eqb_eq. rewrite fexp_eq. lia.
  - apply Z.leb_le. change (emax - prec) with 971. lia.
Qed.

(** A normal value times such a factor rounds to a value strictly below:
    the exact product is at most the predecessor of the value. *)
Lemma SF64mul_lt_left (mb : positive) (eb : Z) (mf : positive) (ef : Z) :
  bounded prec emax mb eb = true ->
  2 ^ 52 <= Zpos mb ->
  bounded prec emax mf ef = true ->
  SFleb (S754_finite false mf ef) SF_one_minus_2m52 = true ->
  SFltb (SF64mul (S754_finite false mb eb) (S754_finite false mf ef))
        (S754_finite false mb eb) = true.
Proof.
  intros Hb Hnorm Hf Hle. unfold SF64mul, SFmul. cbn [xorb].
  apply SFleb_finite_pos in Hle.
  destruct (canonical_facts _ _ Hb) as (Db & Eb & Cb & Mb).
  destruct (canonical_facts _ _ Hf) as (Df & Ef & Cf & Mf).
  destruct (digits2_pos_bounds mb) as [Lb Ub].
  destruct (digits2_pos_bounds mf) as [Lf Uf].
  change (2 ^ 53) with 9007199254740992 in *.
  change (2 ^ 52) with 4503599627370496 in *.
  assert (Hdb : Zpos (digits2_pos mb) = 53).
  { apply Z.le_antisymm; [assumption|].
    assert (52 < Zdigits2 (Zpos mb)) by (apply Zdigits2_gt; [lia | assumption]).
    cbn [Zdigits2] in *. lia. }
  set (T := 2 ^ (-53 - ef)).
  assert (HT : 1 <= T).
  { unfold T. change 1 with (2 ^ 0). apply Z.pow_le_mono_r; lia. }
  assert (ET : 2 ^ (- ef) = 9007199254740992 * T).
  { unfold T. change 9007199254740992 with (2 ^ 53). rewrite <- pow2_split by lia.
    f_equal. lia. }
  assert (Hmf : Zpos mf <= 9007199254740990 * T).
  { destruct Hle as [Hlt|[E Hm]].
    - assert (2 <= T); [|lia]. unfold T. change 2 with (2 ^ 1) at 1.
      apply Z.pow_le_mono_r; lia.
    - assert (T = 1) by (unfold T; rewrite E; reflexivity). lia. }
  assert (Emul : Zpos (mb * mf) = Zpos mb * Zpos mf) by apply Pos2Z.inj_mul.
  assert (Dhi : Zdigits2 (Zpos (mb * mf)) <= 53 + (- ef)).
  { apply Zdigits2_le; [lia | lia |]. rewrite pow2_split, ET by lia.
    change (2 ^ 53) with 9007199254740992. rewrite Emul. nia. }
  assert (Dlo : 52 + Zpos (digits2_pos mf) - 1 < Zdigits2 (Zpos (mb * mf))).
  { apply Zdigits2_gt; [lia|].
    replace (52 + Zpos (digits2_pos mf) - 1) with (52 + (Zpos (digits2_pos mf) - 1)) by lia.
    rewrite pow2_split, Emul by lia. change (2 ^ 52) with 4503599627370496.
    apply Z.mul_le_mono_nonneg; try assumption; [lia | apply Z.pow_nonneg; lia]. }
  assert (H1 : eb + ef <= fexp (Zdigits2 (Zpos (mb * mf)) + (eb + ef))) by (rewrite fexp_eq; lia).
  assert (Hfin : forall (my : positive) (ey : Z),
             bounded prec emax my ey = true ->
             fexp (Zdigits2 (Zpos (mb * mf)) + (eb + ef)) <= ey ->
             Zpos (mb * mf) <= Zpos my * 2 ^ (ey - (eb + ef)) ->
             ey < eb \/ (ey = eb /\ Zpos my < Zpos mb) ->
             SFltb (binary_round_aux prec emax false (Zpos (mb * mf)) (eb + ef) loc_Exact)
                   (S754_finite false mb eb) = true).
  { intros my ey Hy H2 H4 Hbelow.
    destruct (binary_round_aux_upper false (Zpos (mb * mf)) (eb + ef) loc_Exact my ey)
      as [->|(m2 & e2 & -> & Hord)]; try assumption.
    - lia.
    - discriminate.
    - reflexivity.
    - apply SFltb_finite_pos. lia. }
  destruct (Z.eq_dec (Zpos mb) 4503599627370496) as [Emb|Nmb].
  - destruct (Z.eq_dec eb (-1074)) as [Eeb|Neb].
    + (* the smallest normal value: its predecessor is subnormal *)
      apply (Hfin 4503599627370495%positive (-1074)).
      * reflexivity.
      * rewrite fexp_eq. lia.
      * replace (-1074 - (eb + ef)) with (- ef) by lia. rewrite ET, Emul, Emb. lia.
      * right. lia.
    + (* a power of two: its predecessor has the exponent below *)
      apply (Hfin 9007199254740990%positive (eb - 1)).
      * apply bounded_intro; [simpl; lia | lia | left; reflexivity].
      * assert (Zdigits2 (Zpos (mb * mf)) <= 52 + (- ef)); [|rewrite fexp_eq; lia].
        apply Zdigits2_le; [lia | lia |]. rewrite pow2_split, ET by lia.
        change (2 ^ 52) with 4503599627370496. rewrite Emul, Emb. lia.
      * replace (eb - 1 - (eb + ef)) with (52 + (-53 - ef)) by lia.
        rewrite pow2_split by lia. fold T. change (2 ^ 52) with 4503599627370496.
        rewrite Emul, Emb. lia.
      * left. lia.
  - (* otherwise the predecessor has the same exponent *)
    assert (Hpred : Zpos (Pos.pred mb) = Zpos mb - 1) by (rewrite Pos2Z.inj_pred; lia).
    assert (Dpred : Zpos (digits2_pos (Pos.pred mb)) = 53).
    { change (Zpos (digits2_pos (Pos.pred mb))) with (Zdigits2 (Zpos (Pos.pred mb))).
      apply Z.le_antisymm.
      - apply Zdigits2_le; [lia | lia |]. change (2 ^ 53) with 9007199254740992. lia.
      - assert (52 < Zdigits2 (Zpos (Pos.pred mb))); [|lia].
        apply Zdigits2_gt; [lia|]. change (2 ^ 52) with 4503599627370496. lia. }
    apply (Hfin (Pos.pred mb) eb).
    + apply bounded_intro; [lia | lia | left; assumption].
    + rewrite fexp_eq. lia.
    + replace (eb - (eb + ef)) with (- ef) by lia. rewrite ET, Emul, Hpred. nia.
    + right. lia.
Qed.

(** *** Multiplication by one *)

Lemma SF64mul_one (mb : positive) (eb : Z) :
  bounded prec emax mb eb = true ->
  SF64mul (S754_finite false mb eb) SF_one = S754_finite false mb eb.
Proof.
  intros Hb. destruct (bounded_canonical _ _ Hb) as [Hc Hm].
  unfold SF64mul, SF_one, SFmul. cbn [xorb].
  assert (Emul : Zpos (mb * 4503599627370496) = Zpos mb * 2 ^ 52) by (rewrite Pos2Z.inj_mul; reflexivity).
  rewrite Emul.
  destruct (binary_round_aux_anatomy false (Zpos mb * 2 ^ 52) (eb + -52) loc_Exact)
    as (m1 & Hm1 & Hres); [rewrite <- Emul; apply Pos2Z.is_nonneg|].
  cbv zeta in Hres. rewrite Hres. clear Hres.
  assert (Ed : Zdigits2 (Zpos mb * 2 ^ 52) + (eb + -52) = Zpos (digits2_pos mb) + eb).
  { rewrite Zdigits2_mul_pow2 by lia. cbn [Zdigits2]. lia. }
  rewrite Ed in *. rewrite Hc in *.
  replace (Z.max 0 (eb - (eb + -52))) with 52 in * by lia.
  rewrite Z.div_mul, Z.mod_mul in Hm1 by lia.
  assert (E1 : m1 = Zpos mb) by (destruct Hm1 as [->|[_ [H|H]]]; [reflexivity | discriminate | lia]).
  subst m1. replace (eb + -52 + 52) with eb by lia.
  cbn [Zdigits2]. rewrite Hc.
  replace (Z.max 0 (eb - eb)) with 0 by lia.
  rewrite Z.pow_0_r, Z.div_1_r, Z.add_0_r.
  destruct (Z.leb_spec eb (emax - prec)); [reflexivity | lia].
Qed.

(** *** Subtraction from one *)

Lemma SF64sub_one (q : spec_float) :
  valid_binary q = true ->
  SFleb (S754_zero false) q = true ->
  SFltb q SF_one = true ->
  exists mf ef,
    SF64sub SF_one q = S754_finite false mf ef /\
    SFleb (S754_finite false mf ef) SF_one = true /\
    (SFleb SF_2m52 q = true ->
     SFleb (S754_finite false mf ef) SF_one_minus_2m52 = true).
Proof.
  intros Hq H0 H1. destruct q as [s|s| |s mq eq].
  - exists 4503599627370496%positive, (-52). repeat split. discriminate.
  - destruct s; discriminate.
  - discriminate.
  - destruct s; [discriminate|]. clear H0.
    apply SFltb_finite_pos in H1. cbn [valid_binary] in Hq.
    destruct (canonical_facts _ _ Hq) as (Dq & Eq' & Cq & Mq).
    destruct (digits2_pos_bounds mq) as [Lq _].
    unfold SF64sub, SF_one, SFsub. cbn [cond_Zopp].
    set (ez := Z.min (-52) eq).
    destruct (shl_align_spec 4503599627370496 (-52) ez) as [EA _].
    destruct (shl_align_spec mq eq ez) as [EB _].
    cbv zeta in EA, EB. rewrite EA, EB. clear EA EB.
    change (Zpos 4503599627370496) with (2 ^ 52).
    assert (Hez : ez <= -52 /\ -1074 <= ez) by (unfold ez; lia).
    replace (Z.max 0 (-52 - ez)) with (-52 - ez) by lia.
    rewrite <- pow2_split by lia. replace (52 + (-52 - ez)) with (- ez) by lia.
    set (B := Zpos mq * 2 ^ Z.max 0 (eq - ez)).
    assert (HB : 0 < B < 2 ^ (- ez)).
    { unfold B. destruct H1 as [Hlt|[-> Hm]].
      - replace ez with eq by (unfold ez; lia). rewrite Z.sub_diag.
        change (Z.max 0 0) with 0. rewrite Z.pow_0_r, Z.mul_1_r.
        assert (2 ^ 53 <= 2 ^ (- eq)) by (apply Z.pow_le_mono_r; lia). lia.
      - replace ez with (-52) by (unfold ez; lia). rewrite Z.sub_diag.
        change (Z.max 0 0) with 0. rewrite Z.pow_0_r, Z.mul_1_r.
        change (2 ^ (- -52)) with 4503599627370496. lia. }
    (* when q is at least 2^-52, so is its aligned mantissa *)
    assert (HB' : SFleb SF_2m52 (S754_finite false mq eq) = true -> 2 ^ (-52 - ez) <= B).
    { intros Hge. apply SFleb_finite_pos in Hge. unfold B.
      destruct (Z.eq_dec eq (-52)) as [->|Hne].
      - replace ez with (-52) by (unfold ez; lia). rewrite Z.sub_diag.
        change (Z.max 0 0) with 0. change (-52 - -52) with 0.
        rewrite Z.pow_0_r, Z.mul_1_r. lia.
      - replace ez with eq by (unfold ez; lia). rewrite Z.sub_diag.
        change (Z.max 0 0) with 0. rewrite Z.pow_0_r, Z.mul_1_r.
        assert (Zpos (digits2_pos mq) = 53) by lia.
        replace (Zpos (digits2_pos mq) - 1) with 52 in Lq by lia.
        assert (2 ^ (-52 - eq) <= 2 ^ 52) by (apply Z.pow_le_mono_r; lia). lia. }
    destruct (2 ^ (- ez) - B) as [|p|p] eqn:Ep; [lia | | lia].
    assert (Hp : Zpos p < 2 ^ (- ez)) by lia.
    unfold binary_normalize, binary_round.
    set (E' := fexp (Zpos (digits2_pos p) + ez)).
    destruct (shl_align_spec p ez E') as [Emz Eez]. cbv zeta in Emz, Eez.
    destruct (shl_align p ez E') as [mz ez']. cbn [fst snd] in Emz, Eez.
    set (k := Z.max 0 (ez - E')) in *.
    assert (Dp : Zdigits2 (Zpos p) <= - ez) by (apply Zdigits2_le; lia).
    assert (Dz : Zdigits2 (Zpos mz) + ez' = Zpos (digits2_pos p) + ez).
    { rewrite Emz, Zdigits2_mul_pow2 by lia. cbn [Zdigits2]. lia. }
    cbn [Zdigits2] in Dp.
    assert (Pk : 0 < 2 ^ k) by (apply Z.pow_pos_nonneg; lia).
    assert (EE : E' = Z.max (Zpos (digits2_pos p) + ez - 53) (-1074)) by apply fexp_eq.
    assert (HE' : ez' <= E' /\ E' <= -53) by (unfold k in *; lia).
    destruct (binary_round_aux_lower false (Zpos mz) ez' loc_Exact)
      as [Hinf|(m2 & e2 & Hfin & _)]; [lia | lia | |].
    { destruct (binary_round_aux_upper false (Zpos mz) ez' loc_Exact 4503599627370496 (-52))
        as [Hz|(m2 & e2 & Hfin & _)];
        [lia | rewrite Dz; fold E'; lia | rewrite Dz; fold E'; lia | reflexivity | |
         discriminate | congruence | congruence].
      rewrite Emz. change (Zpos 4503599627370496) with (2 ^ 52).
      rewrite <- pow2_split by lia.
      replace (52 + (-52 - ez')) with ((- ez) + k) by lia.
      rewrite pow2_split by lia. nia. }
    exists m2, e2. split; [assumption|]. split.
    + destruct (binary_round_aux_upper false (Zpos mz) ez' loc_Exact 4503599627370496 (-52))
        as [Hz|(m2' & e2' & Hfin' & Hord)];
        [lia | rewrite Dz; fold E'; lia | rewrite Dz; fold E'; lia | reflexivity | |
         discriminate | congruence | ].
      * rewrite Emz. change (Zpos 4503599627370496) with (2 ^ 52).
        rewrite <- pow2_split by lia.
        replace (52 + (-52 - ez')) with ((- ez) + k) by lia.
        rewrite pow2_split by lia. nia.
      * rewrite Hfin in Hfin'. injection Hfin' as <- <-.
        apply SFleb_finite_pos. assumption.
    + intros Hge. specialize (HB' Hge).
      destruct (binary_round_aux_upper false (Zpos mz) ez' loc_Exact 9007199254740990 (-53))
        as [Hz|(m2' & e2' & Hfin' & Hord)];
        [lia | rewrite Dz; fold E'; lia | rewrite Dz; fold E'; lia | reflexivity | |
         discriminate | congruence | ].
      * rewrite Emz.
        assert (Hpp : Zpos p <= 4503599627370495 * 2 ^ (-52 - ez)).
        { assert (E2 : 2 ^ (- ez) = 4503599627370496 * 2 ^ (-52 - ez)).
          { change 4503599627370496 with (2 ^ 52). rewrite <- pow2_split by lia.
            f_equal. lia. }
          lia. }
        assert (E3 : Zpos 9007199254740990 * 2 ^ (-53 - ez') = 4503599627370495 * 2 ^ (-52 - ez) * 2 ^ k).
        { assert (E4 : 2 ^ (-53 - ez' + 1) = 2 ^ (-52 - ez) * 2 ^ k).
          { rewrite <- pow2_split by lia. f_equal. lia. }
          rewrite pow2_split in E4 by lia. change (2 ^ 1) with 2 in E4.
          change (Zpos 9007199254740990) with (4503599627370495 * 2).
          transitivity (4503599627370495 * (2 ^ (-53 - ez') * 2)); [ring | rewrite E4; ring]. }
        rewrite E3. apply Z.mul_le_mono_nonneg_r; lia.
      * rewrite Hfin in Hfin'. injection Hfin' as <- <-.
        apply SFleb_finite_pos. assumption.
Qed.

(** *** Division *)

(** The integer division at the heart of [SFdiv]: the dividend is scaled by
    [2 ^ s], the quotient is the mantissa, and the location is exact just
    when the remainder is zero. *)
Lemma SFdiv_core_binary_spec (m1 : positive) (e1 : Z) (m2 : positive) (e2 : Z) :
  let e' := Z.min (fexp (Zpos (digits2_pos m1) + e1 - (Zpos (digits2_pos m2) + e2))) (e1 - e2) in
  let s := e1 - e2 - e' in
  exists l,
    SFdiv_core_binary prec emax (Zpos m1) e1 (Zpos m2) e2
    = (Zpos m1 * 2 ^ s / Zpos m2, e', l) /\
    isExact l = (Zpos m1 * 2 ^ s mod Zpos m2 =? 0).
Proof.
  intros e' s. unfold SFdiv_core_binary. cbn [Zdigits2]. fold e'. fold s.
  assert (Hs : 0 <= s) by (unfold s, e'; lia).
  set (m' := match s with Z0 => Zpos m1 | Zpos _ => Z.shiftl (Zpos m1) s | Zneg _ => 0 end).
  assert (Em : m' = Zpos m1 * 2 ^ s).
  { unfold m'. destruct s as [|p|p]; [rewrite Z.pow_0_r; lia | | lia].
    apply Z.shiftl_mul_pow2. lia. }
  rewrite Em. unfold Z.div, Z.modulo.
  destruct (Z.div_eucl (Zpos m1 * 2 ^ s) (Zpos m2)) as [q r].
  eexists. split; [reflexivity|].
  unfold new_location, new_location_even, new_location_odd.
  destruct (Z.even (Zpos m2)); destruct (r =? 0); reflexivity.
Qed.

Lemma SF64div_hundred (r : spec_float) :
  valid_binary r = true ->
  SFleb (S754_zero false) r = true ->
  SFltb r SF_hundred = true ->
  SFleb (S754_zero false) (SF64div r SF_hundred) = true /\
  SFltb (SF64div r SF_hundred) SF_one = true /\
  (SFleb SF_2m45 r = true -> SFleb SF_2m52 (SF64div r SF_hundred) = true).
Proof.
  intros Hr H0 H1. destruct r as [s|s| |s mr er].
  - destruct s; repeat split; discriminate.
  - destruct s; discriminate.
  - discriminate.
  - destruct s; [discriminate|]. clear H0.
    apply SFltb_finite_pos in H1. cbn [valid_binary] in Hr.
    destruct (canonical_facts _ _ Hr) as (Dr & Er & Cr & Mr).
    unfold SF64div, SF_hundred, SFdiv. cbn [xorb].
    destruct (SFdiv_core_binary_spec mr er 7036874417766400 (-46)) as (l & -> & Hl).
    cbv zeta in Hl. cbv zeta.
    change (Zpos (digits2_pos 7036874417766400)) with 53 in *.
    set (d := Zpos (digits2_pos mr)) in *.
    set (e' := Z.min (fexp (d + er - (53 + -46))) (er - -46)) in *.
    set (s := er - -46 - e') in *.
    set (M := 7036874417766400) in *.
    assert (HM : M = 25 * 2 ^ 48) by reflexivity.
    assert (He' : e' <= -53) by (unfold e'; rewrite fexp_eq; lia).
    assert (Hs : 0 <= s) by (unfold s, e'; lia).
    assert (Ps : 0 < 2 ^ s) by (apply Z.pow_pos_nonneg; lia).
    set (t := -53 - e').
    assert (Pt : 0 < 2 ^ t) by (apply Z.pow_pos_nonneg; lia).
    set (num := Zpos mr * 2 ^ s) in *.
    (* the quotient stays below the largest double under one *)
    assert (Hnum : num < M * (9007199254740991 * 2 ^ t)).
    { unfold num. destruct (Z_le_gt_dec 0 (er + 99)) as [Hc|Hc].
      - replace s with (t + (er + 99)) by (unfold s, t; lia).
        rewrite pow2_split by (unfold t; lia).
        assert (Zpos mr * 2 ^ (er + 99) < M * 9007199254740991); [|nia].
        destruct H1 as [Hlt|[-> Hm]].
        + assert (0 < 2 ^ (er + 99) <= 2 ^ 52).
          { split; [apply Z.pow_pos_nonneg; lia | apply Z.pow_le_mono_r; lia]. }
          change (2 ^ 53) with 9007199254740992 in Mr.
          change (2 ^ 52) with 4503599627370496 in *. unfold M. nia.
        + change (2 ^ (-46 + 99)) with 9007199254740992. unfold M. lia.
      - replace t with (s + (- (er + 99))) by (unfold s, t; lia).
        rewrite pow2_split by lia.
        assert (1 <= 2 ^ (- (er + 99))).
        { change 1 with (2 ^ 0). apply Z.pow_le_mono_r; lia. }
        change (2 ^ 53) with 9007199254740992 in Mr. unfold M. nia. }
    set (q := num / M) in *.
    assert (Hq0 : 0 <= q) by (apply Z.div_pos; unfold num, M; lia).
    assert (Hqlt : q < 9007199254740991 * 2 ^ t).
    { apply Z.div_lt_upper_bound; [unfold M; lia | assumption]. }
    assert (Dq : Zdigits2 q <= 53 + t).
    { apply Zdigits2_le; [assumption | unfold t; lia |].
      rewrite pow2_split by (unfold t; lia). change (2 ^ 53) with 9007199254740992. lia. }
    assert (Dq' : 53 <= Zdigits2 q \/ e' <= -1074).
    { destruct (Z_le_gt_dec e' (-1074)) as [Hc|Hc]; [right; assumption | left].
      assert (Hsd : 106 <= s + d) by (unfold s, e' in *; rewrite fexp_eq in *; lia).
      assert (s + d - 54 < Zdigits2 q); [|lia].
      apply Zdigits2_gt; [lia|]. apply Z.div_le_lower_bound; [unfold M; lia|].
      destruct (digits2_pos_bounds mr) as [Lo _]. fold d in Lo.
      unfold num. replace (s + d - 54) with ((d - 1) + s - 53) by lia.
      assert (E : 2 ^ (d - 1 + s) = 2 ^ 53 * 2 ^ (d - 1 + s - 53)).
      { rewrite <- pow2_split by lia. f_equal. lia. }
      assert (P : 0 < 2 ^ (d - 1 + s - 53)) by (apply Z.pow_pos_nonneg; lia).
      rewrite pow2_split in E by lia.
      change (2 ^ 53) with 9007199254740992 in E. unfold M. nia. }
    assert (UB : binary_round_aux prec emax false q e' l = S754_zero false \/
                 exists m2 e2,
                   binary_round_aux prec emax false q e' l = S754_finite false m2 e2 /\
                   (e2 < -53 \/ (e2 = -53 /\ Zpos m2 <= 9007199254740991))).
    { apply binary_round_aux_upper.
      - assumption.
      - rewrite fexp_eq. lia.
      - rewrite fexp_eq. unfold t in Dq. lia.
      - reflexivity.
      - fold t. lia.
      - intros _. fold t. assumption. }
    split; [|split].
    + destruct UB as [->|(m2 & e2 & -> & _)]; reflexivity.
    + destruct UB as [->|(m2 & e2 & -> & Hord)]; [reflexivity|].
      apply SFltb_finite_pos. lia.
    + intros Hge. apply SFleb_finite_pos in Hge.
      assert (Hd : d = 53) by lia.
      assert (Ee' : e' = er - 7) by (unfold e'; rewrite fexp_eq; lia).
      assert (Dq53 : 53 <= Zdigits2 q) by lia.
      assert (Hqpos : 0 < q) by (destruct q; simpl in Dq53; lia).
      destruct (binary_round_aux_lower false q e' l Hqpos) as [Hinf|(m2 & e2 & Hfin & He2 & Hm2)];
        [lia | destruct UB as [Hz|(m2 & e2 & Hfin & _)]; congruence |].
      rewrite Hfin. apply SFleb_finite_pos.
      destruct (Z.eq_dec e2 (-104)) as [E|E]; [right | left; lia].
      split; [lia|]. replace (e2 - e') with 0 in Hm2 by lia.
      rewrite Z.pow_0_r, Z.mul_1_r in Hm2.
      assert (2 ^ 52 <= 2 ^ (Zdigits2 q - 1)) by (apply Z.pow_le_mono_r; lia).
      change (2 ^ 52) with 4503599627370496 in *. lia.
Qed.

End Binary64Rounding.

(** ** Exact roundings *)

Section ExactRounding.

Local Open Scope Z_scope.

Local Abbreviation fexp := (SpecFloat.fexp prec emax).

(** A canonical value written with [k] extra low zero bits rounds to itself. *)
Lemma binary_round_aux_exact (s : bool) (m : positive) (e k : Z) :
  bounded prec emax m e = true -> 0 <= k ->
  binary_round_aux prec emax s (Zpos m * 2 ^ k) (e - k) loc_Exact = S754_finite s m e.
Proof.
  intros Hb Hk. destruct (bounded_canonical _ _ Hb) as [Hc Hm].
  assert (Pk : 0 < 2 ^ k) by (apply Z.pow_pos_nonneg; lia).
  destruct (binary_round_aux_anatomy s (Zpos m * 2 ^ k) (e - k) loc_Exact)
    as (m1 & Hm1 & Hres); [lia|].
  cbv zeta in Hres. rewrite Hres. clear Hres.
  assert (Ed : Zdigits2 (Zpos m * 2 ^ k) + (e - k) = Zpos (digits2_pos m) + e).
  { rewrite Zdigits2_mul_pow2 by lia. cbn [Zdigits2]. lia. }
  rewrite Ed in *. rewrite Hc in *.
  replace (Z.max 0 (e - (e - k))) with k in * by lia.
  rewrite Z.div_mul, Z.mod_mul in Hm1 by lia.
  assert (E1 : m1 = Zpos m) by (destruct Hm1 as [->|[_ [H|H]]]; [reflexivity | discriminate | lia]).
  subst m1. replace (e - k + k) with e by lia.
  cbn [Zdigits2]. rewrite Hc.
  replace (Z.max 0 (e - e)) with 0 by lia.
  rewrite Z.pow_0_r, Z.div_1_r, Z.add_0_r.
  destruct (Z.leb_spec e (emax - prec)); [reflexivity | lia].
Qed.

Lemma isExact_true (l : location) : isExact l = true -> l = loc_Exact.
Proof. destruct l; [reflexivity | discriminate]. Qed.

(** Dividing by one changes nothing. *)
Lemma SF64div_one (c : spec_float) :
  valid_binary c = true -> SF64div c SF_one = c.
Proof.
  intros Hv. destruct c as [s|s| |s m e]; try (destruct s; reflexivity); [reflexivity|].
  cbn [valid_binary] in Hv. destruct (bounded_canonical _ _ Hv) as [Hc _].
  unfold SF64div, SF_one, SFdiv.
  destruct (SFdiv_core_binary_spec m e 4503599627370496 (-52)) as (l & -> & Hl).
  cbv zeta in Hl. cbv zeta.
  change (Zpos (digits2_pos 4503599627370496)) with 53 in *.
  set (e' := Z.min (fexp (Zpos (digits2_pos m) + e - (53 + -52))) (e - -52)) in *.
  assert (He' : e' <= e).
  { unfold e'. pose proof (fexp_mono (Zpos (digits2_pos m) + e - (53 + -52))
                                      (Zpos (digits2_pos m) + e) ltac:(lia)). lia. }
  set (k := e - e').
  replace (e - -52 - e') with (k + 52) in * by (unfold k; lia).
  assert (Hk : 0 <= k) by (unfold k; lia).
  assert (Enum : Zpos m * 2 ^ (k + 52) = Zpos m * 2 ^ k * Zpos 4503599627370496).
  { rewrite pow2_split by lia. change (Zpos 4503599627370496) with (2 ^ 52). ring. }
  rewrite Enum in *. rewrite Z.div_mul by discriminate.
  rewrite Z.mod_mul in Hl by discriminate.
  rewrite (isExact_true l Hl).
  replace e' with (e - k) by (unfold k; lia).
  replace (xorb s false) with s by (destruct s; reflexivity).
  apply binary_round_aux_exact; assumption.
Qed.

End ExactRounding.

(** ** Conversion of a count to binary64 *)

Section IntegerConversion.

Local Open Scope Z_scope.

Local Abbreviation fexp := (SpecFloat.fexp prec emax).

(** An integer of at most 53 bits is converted without rounding. *)
Lemma binary_normalize_small (p : positive) :
  Zpos p < 2 ^ 53 ->
  exists m e,
    binary_normalize prec emax (Zpos p) 0 false = S754_finite false m e /\
    bounded prec emax m e = true /\
    -1074 <= e /\ Zpos m * 2 ^ (e + 1074) = Zpos p * 2 ^ 1074.
Proof.
  intros Hp. cbn [binary_normalize]. unfold binary_round.
  set (d := Zpos (digits2_pos p)).
  assert (Hd : 1 <= d <= 53).
  { split; [unfold d; lia|].
    change d with (Zdigits2 (Zpos p)). apply Zdigits2_le; lia. }
  assert (Ef : fexp (d + 0) = d - 53) by (rewrite fexp_eq; lia).
  rewrite Ef.
  pose proof (shl_align_spec p 0 (d - 53)) as Hs. cbv zeta in Hs.
  replace (Z.max 0 (0 - (d - 53))) with (53 - d) in Hs by lia.
  destruct (shl_align p 0 (d - 53)) as [mz ez]. cbn [fst snd] in Hs.
  destruct Hs as [Hm He].
  assert (Ee : ez = d - 53) by lia. clear He. subst ez.
  assert (Hdz : Zpos (digits2_pos mz) = 53).
  { change (Zpos (digits2_pos mz)) with (Zdigits2 (Zpos mz)).
    rewrite Hm, Zdigits2_mul_pow2 by lia. cbn [Zdigits2]. fold d. lia. }
  assert (Hb : bounded prec emax mz (d - 53) = true).
  { apply bounded_intro; lia. }
  exists mz, (d - 53). split; [|split; [exact Hb|split; [lia|]]].
  - pose proof (binary_round_aux_exact false mz (d - 53) 0 Hb (Z.le_refl 0)) as H.
    rewrite Z.pow_0_r, Z.mul_1_r, Z.sub_0_r in H. exact H.
  - rewrite Hm, <- Z.mul_assoc, <- Z.pow_add_r by lia.
    f_equal. f_equal. lia.
Qed.

Lemma double_of_size_exact (n : nat) :
  Z.of_nat n <= 2 ^ 53 ->
  representsInteger (Prim2SF (double_of_size n)) (Z.of_nat n).
Proof.
  intros Hn. unfold double_of_size.
  destruct (Z.of_nat n) as [|p|p] eqn:E; [reflexivity | | lia].
  destruct (Z.eq_dec (Zpos p) (2 ^ 53)) as [H53|H53].
  - injection H53 as ->. vm_compute. split; [discriminate | reflexivity].
  - destruct (binary_normalize_small p) as (m & e & Hr & Hb & He & Hv); [lia|].
    rewrite Hr, Prim2SF_SF2Prim by exact Hb. cbn [representsInteger cond_Zopp].
    split; assumption.
Qed.

End IntegerConversion.

(** ** Discount strategies and rooms *)

Section Constructors.

Local Open Scope float_scope.

(** C3.  For a rate in the accepted range the percentage strategy is
    constructed and its [computeCost] on a positive base cost is the binary64
    value of [b * (1 - rate / 100)]; the no-discount strategy returns the
    base cost itself. *)
Theorem computeCost_formula (rate b : float) :
  (0 <=? rate) = true -> (rate <? 100) = true -> (0 <? b) = true ->
  (exists s, newPercentageDiscountStrategy rate = inr s /\
             computeCost s b = b * (1 - rate / 100)) /\
  computeCost NoDiscountStrategy b = b.
Proof.
  intros Hlo Hhi _. split; [|reflexivity].
  exists (PercentageDiscountStrategy rate). split; [|reflexivity].
  unfold newPercentageDiscountStrategy.
  rewrite (leb_not_gtb _ _ Hlo), (ltb_not_geb _ _ Hhi). reflexivity.
Qed.

Lemma computeCost_formula_witness :
  (exists s, newPercentageDiscountStrategy 20 = inr s /\
             computeCost s 50 = 50 * (1 - 20 / 100)) /\
  computeCost NoDiscountStrategy 50 = 50.
Proof. apply (computeCost_formula 20 50); reflexivity. Defined.

(** C4.  Constructing a percentage strategy throws the invalid-value
    exception exactly when the rate compares below 0 or at least 100;
    otherwise the strategy holds the rate unchanged.  Nothing else in the
    classes validates a rate.  [computeCost] evaluates its formula on
    whatever rate is stored.  The constructor of [RoomBase] accepts a
    strategy with any rate.  A call of [addRoom] that passes the duplicate
    check and the checks of the label and the base cost returns exactly when
    the rate compares equal to 0, for which no strategy with a rate is
    built, or the constructor accepts the rate; when it throws, the
    exception is the one of the constructor.  A rate the constructor rejects
    is rejected by [addRoom] with that exception whatever the label and the
    base cost. *)
Theorem newPercentageDiscountStrategy_fails_iff (rate : float) :
  (failsWith isInvalidValue (newPercentageDiscountStrategy rate) <->
   ((rate <? 0) = true \/ (100 <=? rate) = true)) /\
  (forall e, newPercentageDiscountStrategy rate = inl e -> isInvalidValue e = true) /\
  (forall s, newPercentageDiscountStrategy rate = inr s ->
             s = PercentageDiscountStrategy rate) /\
  (forall b, computeCost (PercentageDiscountStrategy rate) b = b * (1 - rate / 100)) /\
  (forall label cost,
     newRoomBase label cost (Some (PercentageDiscountStrategy rate))
     = inr (mkRoomBase label cost (PercentageDiscountStrategy rate)) <->
     label <> EmptyString /\ (cost <=? 0) = false) /\
  (forall st number b,
     existsRoomNumber_loop (rooms st) number = false ->
     number <> EmptyString -> (b <=? 0) = false ->
     (fst (addRoom number b rate st) = inr tt <->
      (rate =? 0) = true \/ ((rate <? 0) = false /\ (100 <=? rate) = false)) /\
     (forall e, fst (addRoom number b rate st) = inl e ->
                (rate =? 0) = false /\ newPercentageDiscountStrategy rate = inl e)) /\
  (forall st number b,
     existsRoomNumber_loop (rooms st) number = false ->
     (rate =? 0) = false ->
     forall e, newPercentageDiscountStrategy rate = inl e ->
               fst (addRoom number b rate st) = inl e).
Proof.
  unfold newPercentageDiscountStrategy.
  split; [split|split; [|split; [|split; [|split; [|split]]]]].
  - destruct (rate <? 0); [auto|]. destruct (100 <=? rate); [auto|]. simpl. tauto.
  - intros [H|H]; rewrite H; [reflexivity|]. destruct (rate <? 0); reflexivity.
  - intros e. destruct (rate <? 0); [intros [= <-]; reflexivity|].
    destruct (100 <=? rate); [intros [= <-]; reflexivity | discriminate].
  - intros s. destruct (rate <? 0); [discriminate|].
    destruct (100 <=? rate); [discriminate | congruence].
  - reflexivity.
  - intros label cost. unfold newRoomBase.
    destruct label as [|a label]; simpl.
    + split; [discriminate | intros [H _]; now contradiction H].
    + destruct (cost <=? 0); split;
        [discriminate | intros [_ H]; discriminate | split; [discriminate | reflexivity]
        | reflexivity].
  - intros st number b Hfresh Hnum Hb.
    assert (Hlen : (String.length number =? 0)%nat = false)
      by (destruct number; [contradiction | reflexivity]).
    run_hotel.
    destruct (50 <? String.length number)%nat; simpl;
      rewrite Hfresh; simpl;
      (destruct (rate =? 0); simpl;
       [ unfold newRoomBase; rewrite Hlen, Hb; simpl;
         split; [split; [auto | reflexivity] | discriminate]
       | unfold newPercentageDiscountStrategy;
         destruct (rate <? 0); simpl;
         [ split; [split; [discriminate | intros [H|[H _]]; discriminate]
                  | intros e [= <-]; split; reflexivity ]
         | destruct (100 <=? rate); simpl;
           [ split; [split; [discriminate | intros [H|[_ H]]; discriminate]
                    | intros e [= <-]; split; reflexivity ]
           | unfold newRoomBase; rewrite Hlen, Hb; simpl;
             split; [split; [auto | reflexivity] | discriminate] ] ] ]).
  - intros st number b Hfresh Hnz e He. run_hotel.
    destruct (50 <? String.length number)%nat; simpl;
      rewrite Hfresh; simpl; rewrite Hnz; simpl;
      unfold newPercentageDiscountStrategy; rewrite He; reflexivity.
Qed.


(** C5.  Constructing a room throws the invalid-value exception exactly when
    the label is the empty string, the base cost compares at most 0, or the
    strategy pointer is null; labels are taken as they are, blanks included.
    Base costs 0 and -5 are both rejected whatever the other arguments. *)
Theorem newRoomBase_fails_iff (label : string) (cost : float)
    (policy : option IDiscountStrategy) :
  (failsWith isInvalidValue (newRoomBase label cost policy) <->
   (label = EmptyString \/ (cost <=? 0) = true \/ policy = None)) /\
  (forall e, newRoomBase label cost policy = inl e -> isInvalidValue e = true) /\
  failsWith isInvalidValue (newRoomBase label 0 policy) /\
  failsWith isInvalidValue (newRoomBase label (-5) policy) /\
  (forall s, (cost <=? 0) = false ->
             newRoomBase " " cost (Some s) = inr (mkRoomBase " " cost s)).
Proof.
  unfold newRoomBase. repeat split.
  - destruct label; simpl; [auto|].
    destruct (cost <=? 0); [auto|]. destruct policy; simpl; [tauto | auto].
  - intros [->|[H| ->]]; [reflexivity | |].
    + rewrite H. destruct (String.length label =? 0)%nat; reflexivity.
    + destruct (String.length label =? 0)%nat; [reflexivity|].
      destruct (cost <=? 0); reflexivity.
  - intros e. destruct (String.length label =? 0)%nat; [intros [= <-]; reflexivity|].
    destruct (cost <=? 0); [intros [= <-]; reflexivity|].
    destruct policy; [discriminate | intros [= <-]; reflexivity].
  - destruct label; reflexivity.
  - destruct label; reflexivity.
  - intros s H. simpl. rewrite H. reflexivity.
Qed.

End Constructors.

(** ** The percentage discount never raises the price *)

Section PercentageBound.

Local Open Scope float_scope.

Lemma Prim2SF_positive (b : float) :
  (0 <? b) = true ->
  Prim2SF b = S754_infinity false \/
  exists mb eb, Prim2SF b = S754_finite false mb eb /\ bounded prec emax mb eb = true.
Proof.
  rewrite ltb_spec. intros H. pose proof (Prim2SF_valid b) as Hv.
  change (Prim2SF 0) with (S754_zero false) in H.
  destruct (Prim2SF b) as [s|s| |s mb eb]; try discriminate.
  - destruct s; [discriminate | left; reflexivity].
  - destruct s; [discriminate|]. right. exists mb, eb. split; [reflexivity | exact Hv].
Qed.

(** A finite double from the smallest normal one on has a full mantissa. *)
Lemma Prim2SF_normal (b : float) :
  (0x1p-1022 <=? b) = true -> (b <? infinity) = true ->
  exists mb eb,
    Prim2SF b = S754_finite false mb eb /\ bounded prec emax mb eb = true /\
    (2 ^ 52 <= Zpos mb)%Z.
Proof.
  rewrite leb_spec, ltb_spec. intros Hlo Hhi. pose proof (Prim2SF_valid b) as Hv.
  change (Prim2SF 0x1p-1022) with SF_min_normal in Hlo.
  change (Prim2SF infinity) with (S754_infinity false) in Hhi.
  destruct (Prim2SF b) as [s|s| |s mb eb]; try discriminate.
  - destruct s; discriminate.
  - destruct s; [discriminate|]. exists mb, eb. split; [reflexivity|]. split; [exact Hv|].
    apply SFleb_finite_pos in Hlo. cbn [valid_binary] in Hv.
    destruct (canonical_facts _ _ Hv) as (_ & _ & Hc & _).
    destruct (digits2_pos_bounds mb) as [Lo _].
    destruct Hlo as [Hlt|[_ Hm]]; [|exact Hm].
    replace (Zpos (digits2_pos mb) - 1)%Z with 52%Z in Lo by lia. exact Lo.
Qed.

(** The factor [1 - rate / 100] of a rate in the accepted range is a positive
    finite double that is at most one; from the rate [2^-45] on it is at most
    [1 - 2^-52]. *)
Lemma discount_factor_range (rate : float) :
  (0 <=? rate) = true -> (rate <? 100) = true ->
  exists mf ef,
    Prim2SF (1 - rate / 100) = S754_finite false mf ef /\
    SFleb (S754_finite false mf ef) SF_one = true /\
    ((0x1p-45 <=? rate) = true ->
     SFleb (S754_finite false mf ef) SF_one_minus_2m52 = true).
Proof.
  rewrite !leb_spec, ltb_spec. intros Hlo Hhi.
  change (Prim2SF 0) with (S754_zero false) in Hlo.
  change (Prim2SF 100) with SF_hundred in Hhi.
  change (Prim2SF 0x1p-45) with SF_2m45.
  destruct (SF64div_hundred (Prim2SF rate) (Prim2SF_valid rate) Hlo Hhi) as (Hq0 & Hq1 & Hq2).
  rewrite sub_spec. change (Prim2SF 1) with SF_one.
  change SF_hundred with (Prim2SF 100) in Hq0, Hq1, Hq2.
  rewrite <- (div_spec rate 100) in Hq0, Hq1, Hq2.
  destruct (SF64sub_one _ (Prim2SF_valid (rate / 100)) Hq0 Hq1) as (mf & ef & E & H1 & H2).
  exists mf, ef. repeat split; auto.
Qed.

(** With a rate that compares equal to zero the factor is exactly one. *)
Lemma discount_factor_zero (rate : float) :
  (rate =? 0) = true -> 1 - rate / 100 = 1.
Proof.
  rewrite FloatAxioms.eqb_spec. intros H. apply Prim2SF_inj.
  rewrite sub_spec, div_spec.
  change (Prim2SF 0) with (S754_zero false) in H.
  destruct (Prim2SF rate) as [s|s| |s m e]; try discriminate.
  - destruct s; reflexivity.
  - destruct s; discriminate.
  - destruct s; discriminate.
Qed.

(** C7, on the code.  A strictly lower final cost for every positive rate,
    as the specification words it, does not hold: a positive rate can be so
    small that [1 - rate / 100] rounds to 1, and the final cost is then the
    base cost itself.  Base cost 100 with the rate [2^-60] (about 8.7e-19)
    is such a call. *)
Lemma computeCost_not_strictly_less :
  ~ (forall rate b : float,
       (0 <? b) = true -> (0 <=? rate) = true -> (rate <? 100) = true ->
       forall s, newPercentageDiscountStrategy rate = inr s ->
         ((0 <? rate) = true -> (computeCost s b <? b) = true) /\
         ((rate =? 0) = true -> computeCost s b = b)).
Proof.
  intros H.
  destruct (H 0x1p-60 100 eq_refl eq_refl eq_refl
              (PercentageDiscountStrategy 0x1p-60) eq_refl) as [Hlt _].
  specialize (Hlt eq_refl). vm_compute in Hlt. discriminate.
Qed.

(** C7, amended.  For every base cost that compares above 0 and every rate
    in the accepted range, the percentage strategy is constructed and its
    final cost is at most the base cost.  With a rate that compares equal to
    zero it is the base cost itself.  It is strictly less than the base cost
    at least when the rate is [2^-45] (about 2.8e-14) or more and the base
    cost is a finite normal double. *)
Theorem computeCost_at_most_baseCost (rate b : float) :
  (0 <? b) = true -> (0 <=? rate) = true -> (rate <? 100) = true ->
  exists s,
    newPercentageDiscountStrategy rate = inr s /\
    (computeCost s b <=? b) = true /\
    ((rate =? 0) = true -> computeCost s b = b) /\
    ((0x1p-45 <=? rate) = true ->
     (0x1p-1022 <=? b) = true -> (b <? infinity) = true ->
     (computeCost s b <? b) = true).
Proof.
  intros Hb Hlo Hhi. exists (PercentageDiscountStrategy rate).
  destruct (discount_factor_range rate Hlo Hhi) as (mf & ef & EF & HF & HF').
  pose proof (Prim2SF_valid (1 - rate / 100)) as VF.
  split; [|split; [|split]].
  - unfold newPercentageDiscountStrategy.
    rewrite (leb_not_gtb _ _ Hlo), (ltb_not_geb _ _ Hhi). reflexivity.
  - cbn [computeCost]. rewrite leb_spec, mul_spec, EF. rewrite EF in VF.
    destruct (Prim2SF_positive b Hb) as [->|(mb & eb & -> & Hbd)].
    + reflexivity.
    + apply SF64mul_le_left; assumption.
  - intros Hz. cbn [computeCost]. rewrite (discount_factor_zero rate Hz).
    apply Prim2SF_inj. rewrite mul_spec. change (Prim2SF 1) with SF_one.
    destruct (Prim2SF_positive b Hb) as [->|(mb & eb & -> & Hbd)].
    + reflexivity.
    + apply SF64mul_one. assumption.
  - intros Hrate Hnorm Hfin. cbn [computeCost]. rewrite ltb_spec, mul_spec, EF.
    rewrite EF in VF.
    destruct (Prim2SF_normal b Hnorm Hfin) as (mb & eb & -> & Hbd & Hmb).
    apply SF64mul_lt_left; auto.
Qed.

Lemma computeCost_at_most_baseCost_witness :
  exists s,
    newPercentageDiscountStrategy 20 = inr s /\
    (computeCost s 50 <=? 50) = true /\
    ((20 =? 0) = true -> computeCost s 50 = 50) /\
    ((0x1p-45 <=? 20) = true ->
     (0x1p-1022 <=? 50) = true -> (50 <? infinity) = true ->
     (computeCost s 50 <? 50) = true).
Proof. apply (computeCost_at_most_baseCost 20 50); reflexivity. Defined.

End PercentageBound.

(** ** The hotel *)

Section HotelProperties.

Local Open Scope list_scope.

Lemma sumFinalCost_loop_fold (rs : list RoomBase) (acc : float) :
  sumFinalCost_loop rs acc = fold_left PrimFloat.add (map getFinalCost rs) acc.
Proof.
  revert acc. induction rs as [|r rs IH]; intros acc; simpl; [reflexivity | apply IH].
Qed.

(** C1.  On a hotel without rooms the average throws the empty-list
    exception; on any other hotel it returns the sum of the final costs of
    the rooms divided by the number of rooms, a binary64 quotient that is
    not rounded any further.  The divisor is the number of rooms converted
    to binary64, written here with the rounding of the IEEE specification
    itself; up to [2^53] rooms it is the number of rooms exactly.  The state
    is not changed either way. *)
Theorem calculateAverageCost_spec (st : State) :
  (rooms st = [] -> failsWith isEmptyCollection (fst (calculateAverageCost st))) /\
  (rooms st <> [] ->
   let count := Z.of_nat (List.length (rooms st)) in
   let divisor := SF2Prim (binary_normalize prec emax count 0 false) in
   fst (calculateAverageCost st) = inr (sumOfFinalCosts (rooms st) / divisor)%float /\
   ((count <= 2 ^ 53)%Z -> representsInteger (Prim2SF divisor) count)) /\
  snd (calculateAverageCost st) = st.
Proof.
  split; [|split].
  - run_hotel. intros ->. reflexivity.
  - intros Hne. cbv zeta. split.
    + run_hotel. destruct (rooms st) as [|r rs]; [contradiction|]. simpl.
      unfold sumOfFinalCosts. simpl. rewrite sumFinalCost_loop_fold. reflexivity.
    + apply double_of_size_exact.
  - run_hotel. destruct (rooms st); reflexivity.
Qed.

(** C2.  A call of [addRoom] whose label is already stored throws the
    duplicate exception and leaves [rooms] as it was. *)
Theorem addRoom_duplicate (st : State) (number : string) (baseCost discountPercent : float) :
  In number (map getNumber (rooms st)) ->
  failsWith isDuplicateRoom (fst (addRoom number baseCost discountPercent st)) /\
  rooms (snd (addRoom number baseCost discountPercent st)) = rooms st /\
  List.length (rooms (snd (addRoom number baseCost discountPercent st)))
  = List.length (rooms st).
Proof.
  intros Hin. apply existsRoomNumber_loop_In in Hin. run_hotel.
  destruct (50 <? String.length number)%nat; simpl; rewrite Hin; simpl;
    repeat split; reflexivity.
Qed.

Lemma addRoom_duplicate_witness :
  let st := snd (addRoom "101" 100 0 emptyHotel) in
  failsWith isDuplicateRoom (fst (addRoom "101" 150 0 st)) /\
  rooms (snd (addRoom "101" 150 0 st)) = rooms st /\
  List.length (rooms (snd (addRoom "101" 150 0 st))) = List.length (rooms st).
Proof.
  apply (addRoom_duplicate (snd (addRoom "101" 100 0 emptyHotel)) "101" 150 0).
  simpl. left. reflexivity.
Defined.

(** C9.  Whatever exception a call of [addRoom] throws, [rooms] is left as
    it was; and the exception is the duplicate one or an invalid value. *)
Theorem addRoom_failure_keeps_rooms (st : State) (number : string)
    (baseCost discountPercent : float) (e : HotelException) :
  fst (addRoom number baseCost discountPercent st) = inl e ->
  rooms (snd (addRoom number baseCost discountPercent st)) = rooms st /\
  (isDuplicateRoom e = true \/ isInvalidValue e = true).
Proof.
  run_hotel.
  destruct (50 <? String.length number)%nat; simpl;
    (destruct (existsRoomNumber_loop (rooms st) number); simpl;
     [intros [= <-]; auto|]);
    (destruct (discountPercent =? 0)%float; simpl;
     [ | unfold newPercentageDiscountStrategy;
         destruct (discountPercent <? 0)%float; simpl; [intros [= <-]; auto|];
         destruct (100 <=? discountPercent)%float; simpl; [intros [= <-]; auto|] ]);
    unfold newRoomBase;
    (destruct (String.length number =? 0)%nat; simpl; [intros [= <-]; auto|]);
    (destruct (baseCost <=? 0)%float; simpl; [intros [= <-]; auto|]);
    discriminate.
Qed.

Lemma addRoom_failure_keeps_rooms_witness :
  rooms (snd (addRoom "7" 0 (-1) emptyHotel)) = rooms emptyHotel /\
  (isDuplicateRoom (mkInvalidValueException "процент скидки должен быть >= 0") = true \/
   isInvalidValue (mkInvalidValueException "процент скидки должен быть >= 0") = true).
Proof.
  apply (addRoom_failure_keeps_rooms emptyHotel "7" 0 (-1)). reflexivity.
Defined.

(** C10.  When the label is already stored and the discount is out of range
    as well, the duplicate check comes first: the call throws the duplicate
    exception, not an invalid value. *)
Theorem addRoom_checks_duplicate_first (st : State) (number : string)
    (baseCost discountPercent : float) :
  In number (map getNumber (rooms st)) ->
  (discountPercent <? 0)%float = true \/ (100 <=? discountPercent)%float = true ->
  failsWith isDuplicateRoom (fst (addRoom number baseCost discountPercent st)) /\
  ~ failsWith isInvalidValue (fst (addRoom number baseCost discountPercent st)).
Proof.
  intros Hin _. apply existsRoomNumber_loop_In in Hin. run_hotel.
  destruct (50 <? String.length number)%nat; simpl; rewrite Hin; simpl;
    split; [reflexivity | discriminate | reflexivity | discriminate].
Qed.

Lemma addRoom_checks_duplicate_first_witness :
  let st := snd (addRoom "101" 100 0 emptyHotel) in
  failsWith isDuplicateRoom (fst (addRoom "101" 100 150 st)) /\
  ~ failsWith isInvalidValue (fst (addRoom "101" 100 150 st)).
Proof.
  apply (addRoom_checks_duplicate_first
           (snd (addRoom "101" 100 0 emptyHotel)) "101" 100 150).
  - simpl. left. reflexivity.
  - right. reflexivity.
Defined.

Lemma NoDup_snoc {A : Type} (l : list A) (x : A) :
  NoDup l -> ~ In x l -> NoDup (l ++ [x]).
Proof.
  induction l as [|y l IH]; simpl; intros Hnd Hx.
  - constructor; [tauto | constructor].
  - inversion Hnd as [|? ? Hy Hl]; subst. constructor.
    + rewrite in_app_iff. simpl. intros [H|[H|[]]]; [contradiction | subst; tauto].
    + apply IH; tauto.
Qed.

Lemma addRoom_keeps_NoDup (st : State) (number : string) (baseCost discountPercent : float) :
  NoDup (map getNumber (rooms st)) ->
  NoDup (map getNumber (rooms (snd (addRoom number baseCost discountPercent st)))).
Proof.
  intros Hnd.
  destruct (addRoom_outcome st number baseCost discountPercent)
    as [(e & _ & ->) | (_ & Hfresh & strat & ->)]; [assumption|].
  rewrite map_app. simpl. apply NoDup_snoc; [assumption|].
  intros Hin. apply existsRoomNumber_loop_In in Hin. unfold getNumber in Hfresh.
  simpl in Hin. congruence.
Qed.

Lemma runCalls_extends (cs : list AddRoomCall) (st : State) :
  exists added, rooms (runCalls cs st) = rooms st ++ added.
Proof.
  revert st. induction cs as [|c cs IH]; intros st; simpl.
  - exists []. symmetry. apply app_nil_r.
  - destruct (IH (runCall st c)) as [added Hadded]. fold (runCalls cs (runCall st c)).
    rewrite Hadded. unfold runCall.
    destruct (addRoom_outcome st (callNumber c) (callBaseCost c) (callDiscountPercent c))
      as [(e & _ & ->) | (_ & _ & strat & ->)].
    + exists added. reflexivity.
    + eexists. rewrite <- app_assoc. reflexivity.
Qed.

(** C6.  In every state reached from the empty hotel by calls of [addRoom]
    no two rooms carry the same label.  A call changes [rooms] only by
    appending the room of that call at the end, so the rooms stored before
    stay where they were, in the same order, whatever calls follow. *)
Theorem reachable_labels_unique_order_kept (st : State) :
  reachable st ->
  NoDup (map getNumber (rooms st)) /\
  (forall number baseCost discountPercent,
     let out := addRoom number baseCost discountPercent st in
     (fst out = inr tt /\
      exists strat, rooms (snd out) = rooms st ++ [mkRoomBase number baseCost strat]) \/
     ((exists e, fst out = inl e) /\ rooms (snd out) = rooms st)) /\
  (forall cs, exists added, rooms (runCalls cs st) = rooms st ++ added).
Proof.
  intros Hreach. split; [|split].
  - induction Hreach as [|st number baseCost discountPercent _ IH].
    + constructor.
    + apply addRoom_keeps_NoDup, IH.
  - intros number baseCost discountPercent out. subst out.
    destruct (addRoom_outcome st number baseCost discountPercent)
      as [(e & He & Hrooms) | (Hok & _ & strat & Hrooms)].
    + right. split; [exists e|]; assumption.
    + left. split; [assumption | exists strat; assumption].
  - intros cs. apply runCalls_extends.
Qed.

Lemma reachable_labels_unique_order_kept_witness :
  let st := snd (addRoom "102" 200 50 (snd (addRoom "101" 100 0 emptyHotel))) in
  NoDup (map getNumber (rooms st)) /\
  (forall number baseCost discountPercent,
     let out := addRoom number baseCost discountPercent st in
     (fst out = inr tt /\
      exists strat, rooms (snd out) = rooms st ++ [mkRoomBase number baseCost strat]) \/
     ((exists e, fst out = inl e) /\ rooms (snd out) = rooms st)) /\
  (forall cs, exists added, rooms (runCalls cs st) = rooms st ++ added).
Proof.
  apply (reachable_labels_unique_order_kept
           (snd (addRoom "102" 200 50 (snd (addRoom "101" 100 0 emptyHotel))))).
  apply reachable_addRoom. apply reachable_addRoom. apply reachable_empty.
Defined.

(** C8.  A call whose label is longer than 50 bytes, is not stored yet, and
    whose base cost and discount are in range returns normally: it writes the
    warning to [cerr] and appends the room, with the strategy the discount
    selects. *)
Theorem addRoom_long_label (st : State) (number : string) (baseCost discountPercent : float) :
  50 < String.length number ->
  ~ In number (map getNumber (rooms st)) ->
  (0 <? baseCost)%float = true ->
  (0 <=? discountPercent)%float = true -> (discountPercent <? 100)%float = true ->
  addRoom number baseCost discountPercent st
  = (inr tt,
     mkState
       (rooms st ++
        [mkRoomBase number baseCost
           (if (discountPercent =? 0)%float then NoDiscountStrategy
            else PercentageDiscountStrategy discountPercent)])
       (cerr st ++ [warningTooLong])).
Proof.
  intros Hlen Hfresh Hcost Hlo Hhi.
  assert (Edup : existsRoomNumber_loop (rooms st) number = false).
  { destruct (existsRoomNumber_loop (rooms st) number) eqn:E; [|reflexivity].
    apply existsRoomNumber_loop_In in E. contradiction. }
  run_hotel.
  destruct (Nat.ltb_spec 50 (String.length number)) as [_|Hle]; [|lia]. simpl.
  rewrite Edup. simpl.
  assert (Enz : (String.length number =? 0)%nat = false) by (apply Nat.eqb_neq; lia).
  destruct (discountPercent =? 0)%float; simpl.
  - unfold newRoomBase. rewrite Enz, (ltb_not_geb _ _ Hcost). reflexivity.
  - unfold newPercentageDiscountStrategy.
    rewrite (leb_not_gtb _ _ Hlo), (ltb_not_geb _ _ Hhi). simpl.
    unfold newRoomBase. rewrite Enz, (ltb_not_geb _ _ Hcost). reflexivity.
Qed.

Lemma addRoom_long_label_witness :
  let number := "Presidential suite, top floor, east wing, sea view, no. 1" in
  addRoom number 100 10 emptyHotel
  = (inr tt,
     mkState [mkRoomBase number 100 (PercentageDiscountStrategy 10)] [warningTooLong]).
Proof.
  apply (addRoom_long_label emptyHotel
           "Presidential suite, top floor, east wing, sea view, no. 1" 100 10).
  - simpl. lia.
  - simpl. tauto.
  - reflexivity.
  - reflexivity.
  - reflexivity.
Defined.

End HotelProperties.

(** ** One call of [addRoom], in full *)

Section AddRoomAccount.

Local Open Scope list_scope.

Variable st : State.
Variables (number : string) (baseCost discountPercent : float).

(** Complete account of one call. *)
Lemma addRoom_run :
  addRoom number baseCost discountPercent st =
  let log := cerr st ++ (if (50 <? String.length number)%nat then [warningTooLong] else []) in
  if existsRoomNumber_loop (rooms st) number then
    (inl (mkDuplicateRoomException ("номер '" ++ number ++ "' уже существует")),
     mkState (rooms st) log)
  else if validArgs number baseCost discountPercent then
    (inr tt,
     mkState (rooms st ++ [mkRoomBase number baseCost (strategyFor discountPercent)]) log)
  else
    (fst (addRoom number baseCost discountPercent st), mkState (rooms st) log).
Proof.
  unfold validArgs, strategyFor. run_hotel.
  destruct st as [rs log]. simpl.
  destruct (50 <? String.length number)%nat; simpl;
    (destruct (existsRoomNumber_loop rs number); simpl;
     [ rewrite ?app_nil_r; reflexivity | ]);
    (destruct (discountPercent =? 0)%float; simpl;
     [ | unfold newPercentageDiscountStrategy;
         destruct (discountPercent <? 0)%float; simpl;
         [ rewrite ?andb_false_r, ?app_nil_r; reflexivity | ];
         destruct (100 <=? discountPercent)%float; simpl;
         [ rewrite ?andb_false_r, ?app_nil_r; reflexivity | ] ]);
    unfold newRoomBase;
    (destruct (String.length number =? 0)%nat; simpl;
     [ rewrite ?app_nil_r; reflexivity | ]);
    (destruct (baseCost <=? 0)%float; simpl; rewrite ?app_nil_r; reflexivity).
Qed.

End AddRoomAccount.

Section AddRoomCalls.

Local Open Scope list_scope.

Lemma existsRoomNumber_loop_app (rs : list RoomBase) (r : RoomBase) (num : string) :
  existsRoomNumber_loop (rs ++ [r]) num
  = existsRoomNumber_loop rs num || String.eqb (getNumber r) num.
Proof.
  induction rs as [|x rs IH]; simpl.
  - destruct (String.eqb (getNumber r) num); reflexivity.
  - destruct (String.eqb (getNumber x) num); [reflexivity | exact IH].
Qed.

Lemma invalid_args_throw (st : State) (number : string) (baseCost discountPercent : float) :
  existsRoomNumber_loop (rooms st) number = false ->
  validArgs number baseCost discountPercent = false ->
  failsWith isInvalidValue (fst (addRoom number baseCost discountPercent st)).
Proof.
  intros Hfresh Hbad. unfold validArgs in Hbad. run_hotel.
  destruct (50 <? String.length number)%nat; simpl; rewrite Hfresh; simpl;
    (destruct (discountPercent =? 0)%float; simpl;
     [ | unfold newPercentageDiscountStrategy;
         destruct (discountPercent <? 0)%float; simpl; [reflexivity|];
         destruct (100 <=? discountPercent)%float; simpl; [reflexivity|] ]);
    unfold newRoomBase;
    (destruct (String.length number =? 0)%nat; simpl; [reflexivity|]);
    (destruct (baseCost <=? 0)%float; simpl; [reflexivity|]);
    simpl in Hbad; discriminate.
Qed.

(** The vector after a call that returned. *)
Lemma addRoom_returned_rooms (st : State) (number : string)
    (baseCost discountPercent : float) :
  fst (addRoom number baseCost discountPercent st) = inr tt ->
  rooms (snd (addRoom number baseCost discountPercent st))
  = rooms st ++ [mkRoomBase number baseCost (strategyFor discountPercent)].
Proof.
  pose proof (invalid_args_throw st number baseCost discountPercent) as Hbad.
  rewrite addRoom_run in *. cbv zeta in *.
  destruct (existsRoomNumber_loop (rooms st) number); [discriminate|].
  destruct (validArgs number baseCost discountPercent); [reflexivity|].
  specialize (Hbad eq_refl eq_refl). simpl in Hbad |- *.
  destruct (fst (addRoom number baseCost discountPercent st)); [discriminate | contradiction].
Qed.

(** X1.  The duplicate exception names the label: its text is the class
    prefix followed by the label between quotes. *)
Theorem duplicate_exception_names_label (st : State) (number : string)
    (baseCost discountPercent : float) :
  In number (map getNumber (rooms st)) ->
  fst (addRoom number baseCost discountPercent st)
  = inl (DuplicateRoomException
           ("Дубликат номера: номер '" ++ number ++ "' уже существует")).
Proof.
  intros Hin. apply existsRoomNumber_loop_In in Hin.
  rewrite addRoom_run. cbv zeta. rewrite Hin. reflexivity.
Qed.

Lemma duplicate_exception_names_label_witness :
  fst (addRoom "101" 150 0 (snd (addRoom "101" 100 0 emptyHotel)))
  = inl (DuplicateRoomException
           ("Дубликат номера: номер '" ++ "101" ++ "' уже существует")).
Proof.
  apply (duplicate_exception_names_label (snd (addRoom "101" 100 0 emptyHotel)) "101" 150 0).
  simpl. left. reflexivity.
Defined.

(** X2.  The length warning does not depend on the outcome: a call writes
    the warning to [cerr] exactly when the label is longer than 50 bytes,
    also when the call then throws; nothing else is ever written there. *)
Theorem addRoom_warning (st : State) (number : string) (baseCost discountPercent : float) :
  cerr (snd (addRoom number baseCost discountPercent st))
  = cerr st ++ (if (50 <? String.length number)%nat then [warningTooLong] else []).
Proof.
  rewrite addRoom_run. cbv zeta.
  destruct (existsRoomNumber_loop (rooms st) number); [reflexivity|].
  destruct (validArgs number baseCost discountPercent); reflexivity.
Qed.

(** X3.  [addRoom] returns normally exactly when the label is not stored yet
    and is not empty, the base cost does not compare at most 0, and the
    discount compares equal to 0 or is neither below 0 nor at least 100.  The
    room appended then carries the label, the base cost, and no discount for
    a zero discount, the percentage otherwise. *)
Theorem addRoom_returns_iff (st : State) (number : string) (baseCost discountPercent : float) :
  (fst (addRoom number baseCost discountPercent st) = inr tt <->
   (~ In number (map getNumber (rooms st)) /\
    validArgs number baseCost discountPercent = true)) /\
  (fst (addRoom number baseCost discountPercent st) = inr tt ->
   rooms (snd (addRoom number baseCost discountPercent st))
   = rooms st ++ [mkRoomBase number baseCost (strategyFor discountPercent)]).
Proof.
  pose proof (existsRoomNumber_loop_In (rooms st) number) as Hin.
  pose proof (invalid_args_throw st number baseCost discountPercent) as Hbad.
  rewrite addRoom_run in *. cbv zeta in *.
  destruct (existsRoomNumber_loop (rooms st) number).
  - split; [split|]; [discriminate | | discriminate].
    intros [Hn _]. exfalso. apply Hn, Hin. reflexivity.
  - destruct (validArgs number baseCost discountPercent).
    + split; [split|]; [|reflexivity|reflexivity].
      intros _. split; [|reflexivity]. intros H. apply Hin in H. discriminate.
    + specialize (Hbad eq_refl eq_refl). simpl in Hbad |- *.
      destruct (fst (addRoom number baseCost discountPercent st)) as [e|u];
        [|contradiction].
      split; [split|]; [discriminate | intros [_ H]; discriminate | discriminate].
Qed.

(** X4.  Looking a label up after a call: when the call returned, the label
    added is found and every other label is found exactly if it was before;
    when the call threw, every lookup answers as before. *)
Theorem existsRoomNumber_after_addRoom (st : State) (number : string)
    (baseCost discountPercent : float) (num : string) :
  fst (existsRoomNumber num (snd (addRoom number baseCost discountPercent st)))
  = match fst (addRoom number baseCost discountPercent st) with
    | inr _ => inr (existsRoomNumber_loop (rooms st) num || String.eqb number num)
    | inl _ => fst (existsRoomNumber num st)
    end.
Proof.
  pose proof (invalid_args_throw st number baseCost discountPercent) as Hbad.
  unfold existsRoomNumber, getRooms, bind, ret. simpl.
  rewrite addRoom_run in *. cbv zeta in *.
  destruct (existsRoomNumber_loop (rooms st) number); [reflexivity|].
  destruct (validArgs number baseCost discountPercent); simpl.
  - rewrite existsRoomNumber_loop_app. reflexivity.
  - specialize (Hbad eq_refl eq_refl). simpl in Hbad.
    destruct (fst (addRoom number baseCost discountPercent st)); [reflexivity | contradiction].
Qed.

(** X5.  Once a call has returned, its label is taken: any later call with
    that label throws the duplicate exception, whatever its costs and
    whatever calls went in between. *)
Theorem addRoom_label_taken (st : State) (number : string)
    (baseCost discountPercent : float) (cs : list AddRoomCall)
    (baseCost' discountPercent' : float) :
  fst (addRoom number baseCost discountPercent st) = inr tt ->
  failsWith isDuplicateRoom
    (fst (addRoom number baseCost' discountPercent'
            (runCalls cs (snd (addRoom number baseCost discountPercent st))))).
Proof.
  intros Hok. pose proof (addRoom_returned_rooms st number baseCost discountPercent Hok) as Hrooms.
  destruct (runCalls_extends cs (snd (addRoom number baseCost discountPercent st)))
    as [added Hadded].
  assert (Hin : In number
                  (map getNumber
                     (rooms (runCalls cs (snd (addRoom number baseCost discountPercent st)))))).
  { rewrite Hadded, Hrooms, !map_app, !in_app_iff. left. right. simpl. auto. }
  apply existsRoomNumber_loop_In in Hin.
  rewrite addRoom_run. cbv zeta. rewrite Hin. reflexivity.
Qed.

Lemma addRoom_label_taken_witness :
  failsWith isDuplicateRoom
    (fst (addRoom "101" 80 5
            (runCalls [mkAddRoomCall "102" 200 50]
               (snd (addRoom "101" 100 0 emptyHotel))))).
Proof.
  apply (addRoom_label_taken emptyHotel "101" 100 0 [mkAddRoomCall "102" 200 50] 80 5).
  reflexivity.
Defined.

(** X6.  Every room of a reachable hotel satisfies what the constructors
    check: its label is not empty, its base cost does not compare at most 0,
    and a stored percentage is neither below 0, nor at least 100, nor equal
    to 0. *)
Theorem reachable_rooms_valid (st : State) :
  reachable st -> forallb validRoom (rooms st) = true.
Proof.
  induction 1 as [|st number baseCost discountPercent _ IH]; [reflexivity|].
  rewrite addRoom_run. cbv zeta.
  destruct (existsRoomNumber_loop (rooms st) number); [exact IH|].
  destruct (validArgs number baseCost discountPercent) eqn:Hv; [|exact IH].
  simpl. rewrite forallb_app, IH. simpl. rewrite andb_true_r.
  unfold validArgs in Hv. unfold validRoom, strategyFor. simpl.
  destruct (String.length number =? 0)%nat; [discriminate|].
  destruct (baseCost <=? 0)%float; [discriminate|]. simpl in *.
  destruct (discountPercent =? 0)%float eqn:E0; simpl; [reflexivity|].
  rewrite E0. simpl in Hv. rewrite Hv. reflexivity.
Qed.

Lemma reachable_rooms_valid_witness :
  forallb validRoom
    (rooms (snd (addRoom "102" 200 50 (snd (addRoom "101" 100 0 emptyHotel))))) = true.
Proof.
  apply (reachable_rooms_valid
           (snd (addRoom "102" 200 50 (snd (addRoom "101" 100 0 emptyHotel))))).
  apply reachable_addRoom. apply reachable_addRoom. apply reachable_empty.
Defined.

(** X7.  From the empty hotel on, the average is refused exactly as long as
    no call had valid arguments: [calculateAverageCost] throws the empty-list
    exception after a history of calls if and only if every call in it had
    an empty label, a base cost at most 0 or a discount out of range. *)
Theorem average_refused_iff (cs : list AddRoomCall) :
  failsWith isEmptyCollection (fst (calculateAverageCost (runCalls cs emptyHotel))) <->
  forallb (fun c => negb (validArgs (callNumber c) (callBaseCost c) (callDiscountPercent c)))
          cs = true.
Proof.
  assert (Hempty : forall st, rooms st = [] ->
            (rooms (runCalls cs st) = [] <->
             forallb (fun c => negb (validArgs (callNumber c) (callBaseCost c)
                                      (callDiscountPercent c))) cs = true)).
  { induction cs as [|c cs IH]; intros st Hst; simpl.
    - tauto.
    - fold (runCalls cs (runCall st c)).
      pose proof (runCalls_extends cs (runCall st c)) as [added Hadded].
      assert (Hstep : rooms (runCall st c)
                      = if validArgs (callNumber c) (callBaseCost c) (callDiscountPercent c)
                        then [mkRoomBase (callNumber c) (callBaseCost c)
                                (strategyFor (callDiscountPercent c))]
                        else []).
      { unfold runCall. rewrite addRoom_run. cbv zeta. rewrite Hst. simpl.
        destruct (validArgs _ _ _); reflexivity. }
      destruct (validArgs (callNumber c) (callBaseCost c) (callDiscountPercent c)); simpl.
      + rewrite Hadded, Hstep. simpl. split; discriminate.
      + apply IH. exact Hstep. }
  specialize (Hempty emptyHotel eq_refl). rewrite <- Hempty.
  run_hotel. destruct (rooms (runCalls cs emptyHotel)); simpl.
  - split; reflexivity.
  - split; [contradiction | discriminate].
Qed.

End AddRoomCalls.

(** ** Signs of costs and the average of one room *)

Section CostsAndAverages.

Local Open Scope float_scope.

(** The final cost under a percentage in range has the sign bit clear: it is
    [+0], a positive finite double or [+infinity]. *)
Lemma percentage_cost_sign (rate b : float) :
  (0 <? b) = true -> (0 <=? rate) = true -> (rate <? 100) = true ->
  Prim2SF (b * (1 - rate / 100)) = S754_zero false \/
  (exists m e, Prim2SF (b * (1 - rate / 100)) = S754_finite false m e) \/
  Prim2SF (b * (1 - rate / 100)) = S754_infinity false.
Proof.
  intros Hb Hlo Hhi. rewrite mul_spec.
  destruct (discount_factor_range rate Hlo Hhi) as (mf & ef & -> & _).
  destruct (Prim2SF_positive b Hb) as [->|(mb & eb & -> & _)].
  - right. right. reflexivity.
  - unfold SF64mul, SFmul. cbn [xorb].
    apply binary_round_aux_sign. apply Pos2Z.is_nonneg.
Qed.

(** X8.  A percentage in range never makes the cost negative or undefined:
    the final cost of a positive base cost compares at least 0. *)
Theorem computeCost_nonnegative (rate b : float) :
  (0 <? b) = true -> (0 <=? rate) = true -> (rate <? 100) = true ->
  (0 <=? computeCost (PercentageDiscountStrategy rate) b) = true.
Proof.
  intros Hb Hlo Hhi. cbn [computeCost]. rewrite leb_spec.
  change (Prim2SF 0) with (S754_zero false).
  destruct (percentage_cost_sign rate b Hb Hlo Hhi) as [->|[(m & e & ->)| ->]]; reflexivity.
Qed.

Lemma computeCost_nonnegative_witness :
  (0 <=? computeCost (PercentageDiscountStrategy 20) 50) = true.
Proof. apply (computeCost_nonnegative 20 50); reflexivity. Defined.

(** Adding to zero and dividing by one give back a value whose sign bit is
    clear. *)
Lemma average_of_one (c : float) :
  Prim2SF c = S754_zero false \/
  (exists m e, Prim2SF c = S754_finite false m e) \/
  Prim2SF c = S754_infinity false ->
  (0 + c) / double_of_size 1 = c.
Proof.
  intros Hc. change (double_of_size 1) with 1.
  assert (E : 0 + c = c).
  { apply Prim2SF_inj. rewrite add_spec. change (Prim2SF 0) with (S754_zero false).
    destruct Hc as [->|[(m & e & ->)| ->]]; reflexivity. }
  rewrite E. apply Prim2SF_inj. rewrite div_spec. change (Prim2SF 1) with SF_one.
  apply SF64div_one. apply Prim2SF_valid.
Qed.

(** X9.  The average of a hotel with a single room is the final cost of
    that room: after one call with a label that is not empty, a positive base
    cost and a discount in range on a hotel without rooms, the average is the
    base cost for a zero discount and the discounted cost otherwise. *)
Theorem average_single_room (st : State) (number : string) (baseCost discountPercent : float) :
  rooms st = [] -> number <> EmptyString ->
  (0 <? baseCost) = true ->
  (0 <=? discountPercent) = true -> (discountPercent <? 100) = true ->
  fst (calculateAverageCost (snd (addRoom number baseCost discountPercent st)))
  = inr (computeCost (strategyFor discountPercent) baseCost).
Proof.
  intros Hst Hn Hb Hlo Hhi.
  assert (Hv : validArgs number baseCost discountPercent = true).
  { unfold validArgs. destruct number; [contradiction|]. simpl.
    rewrite (ltb_not_geb _ _ Hb), (leb_not_gtb _ _ Hlo), (ltb_not_geb _ _ Hhi).
    simpl. apply orb_true_r. }
  rewrite addRoom_run. cbv zeta. rewrite Hst. simpl. rewrite Hv.
  unfold calculateAverageCost, bind, getRooms, ret. simpl. f_equal.
  unfold getFinalCost. simpl.
  apply average_of_one. unfold strategyFor.
  destruct (discountPercent =? 0); cbn [computeCost].
  - destruct (Prim2SF_positive baseCost Hb) as [->|(mb & eb & -> & _)]; eauto.
  - apply percentage_cost_sign; assumption.
Qed.

Lemma average_single_room_witness :
  fst (calculateAverageCost (snd (addRoom "A" 50 20 emptyHotel)))
  = inr (computeCost (strategyFor 20) 50).
Proof.
  apply (average_single_room emptyHotel "A" 50 20);
    [reflexivity | discriminate | reflexivity | reflexivity | reflexivity].
Defined.

End CostsAndAverages.

(** ** Searching and cutting strings *)

Section Strings.

Lemma append_nil_r (s : string) : s ++ "" = s.
Proof. induction s as [|c s IH]; simpl; [reflexivity | now rewrite IH]. Qed.

Lemma append_assoc (a b c : string) : (a ++ b) ++ c = a ++ (b ++ c).
Proof. induction a as [|x a IH]; simpl; [reflexivity | now rewrite IH]. Qed.

Lemma length_append (a b : string) :
  String.length (a ++ b) = String.length a + String.length b.
Proof. induction a as [|x a IH]; simpl; [reflexivity | now rewrite IH]. Qed.

Lemma substring_skip (pre t : string) (a n : nat) :
  substring (String.length pre + a) n (pre ++ t) = substring a n t.
Proof. induction pre as [|x pre IH]; simpl; [reflexivity | exact IH]. Qed.

Lemma substring_prefix (a b : string) (n : nat) :
  substring 0 (String.length a + n) (a ++ b) = a ++ substring 0 n b.
Proof. induction a as [|x a IH]; simpl; [reflexivity | now rewrite IH]. Qed.

Lemma substring_0_0 (s : string) : substring 0 0 s = "".
Proof. destruct s; reflexivity. Qed.

Lemma substring_all (s : string) : substring 0 (String.length s) s = s.
Proof. induction s as [|c s IH]; simpl; [reflexivity | now rewrite IH]. Qed.

Variable chars : string.

Lemma find_first_not_of_None (s : string) :
  find_first_not_of s chars = None <-> allIn chars s = true.
Proof.
  induction s as [|c s IH]; simpl; [tauto|].
  destruct (contains chars c); simpl.
  - rewrite <- IH. destruct (find_first_not_of s chars); simpl; split; congruence.
  - split; discriminate.
Qed.

Lemma find_last_not_of_None (s : string) :
  find_last_not_of s chars = None <-> allIn chars s = true.
Proof.
  induction s as [|c s IH]; simpl; [tauto|].
  destruct (find_last_not_of s chars) as [i|].
  - split; [discriminate|]. intros H. apply andb_true_iff in H.
    destruct H as [_ H]. apply IH in H. discriminate.
  - destruct IH as [IH _]. rewrite (IH eq_refl), andb_true_r.
    destruct (contains chars c); split; congruence.
Qed.

(** The first search stops at the first character outside the set. *)
Lemma find_first_not_of_Some (s : string) (i : nat) :
  find_first_not_of s chars = Some i ->
  exists pre c rest,
    s = pre ++ String c rest /\ String.length pre = i /\
    allIn chars pre = true /\ contains chars c = false.
Proof.
  revert i. induction s as [|c s IH]; simpl; intros i H; [discriminate|].
  destruct (contains chars c) eqn:E.
  - destruct (find_first_not_of s chars) as [k|]; [|discriminate].
    injection H as <-. destruct (IH k eq_refl) as (pre & d & rest & -> & <- & Hpre & Hd).
    exists (String c pre), d, rest. simpl. rewrite E, Hpre. auto.
  - injection H as <-. exists "", c, s. auto.
Qed.

(** The last search stops at the last character outside the set. *)
Lemma find_last_not_of_Some (s : string) (j : nat) :
  find_last_not_of s chars = Some j ->
  exists init c post,
    s = init ++ String c post /\ String.length init = j /\
    contains chars c = false /\ allIn chars post = true.
Proof.
  revert j. induction s as [|c s IH]; simpl; intros j H; [discriminate|].
  destruct (find_last_not_of s chars) as [k|] eqn:E.
  - injection H as <-. destruct (IH k eq_refl) as (init & d & post & -> & <- & Hd & Hpost).
    exists (String c init), d, post. auto.
  - destruct (contains chars c) eqn:Ec; [discriminate|]. injection H as <-.
    exists "", c, s. repeat split; auto. now apply find_last_not_of_None.
Qed.

Lemma find_last_not_of_skip (pre t : string) :
  allIn chars pre = true ->
  find_last_not_of (pre ++ t) chars
  = option_map (Nat.add (String.length pre)) (find_last_not_of t chars).
Proof.
  induction pre as [|x pre IH]; simpl; intros H.
  - destruct (find_last_not_of t chars); reflexivity.
  - apply andb_true_iff in H. destruct H as [Hx Hpre]. rewrite (IH Hpre).
    destruct (find_last_not_of t chars); simpl; [reflexivity | now rewrite Hx].
Qed.

Lemma find_last_not_of_end (init : string) (c : ascii) :
  contains chars c = false ->
  find_last_not_of (init ++ String c "") chars = Some (String.length init).
Proof.
  intros Hc. induction init as [|x init IH]; simpl.
  - now rewrite Hc.
  - now rewrite IH.
Qed.

Lemma find_first_not_of_head (c : ascii) (rest : string) :
  contains chars c = false -> find_first_not_of (String c rest) chars = Some 0.
Proof. intros H. simpl. now rewrite H. Qed.

End Strings.

Section Trimming.

(** No cut: the line holds nothing but characters of the set. *)
Lemma trimmed_None (line : string) :
  trimmed line = None <-> allIn blanks line = true.
Proof.
  unfold trimmed.
  destruct (find_first_not_of line blanks) as [i|] eqn:F.
  - destruct (find_last_not_of line blanks) as [j|] eqn:L.
    + split; [discriminate|]. intros H. apply find_first_not_of_None in H. congruence.
    + split; [intros _; now apply find_last_not_of_None | reflexivity].
  - split; [intros _; now apply find_first_not_of_None | reflexivity].
Qed.

(** A cut: the line between its first and its last character outside the
    set. *)
Lemma trimmed_Some (line s : string) :
  trimmed line = Some s ->
  s <> "" /\
  (exists pre post,
     line = pre ++ s ++ post /\ allIn blanks pre = true /\ allIn blanks post = true) /\
  find_first_not_of s blanks = Some 0 /\
  find_last_not_of s blanks = Some (String.length s - 1).
Proof.
  unfold trimmed.
  destruct (find_first_not_of line blanks) as [i|] eqn:F; [|discriminate].
  destruct (find_last_not_of line blanks) as [j|] eqn:L; [|discriminate].
  intros [= <-].
  destruct (find_first_not_of_Some _ _ _ F) as (pre & c & rest & -> & <- & Hpre & Hc).
  rewrite (find_last_not_of_skip _ _ _ Hpre) in L.
  destruct (find_last_not_of (String c rest) blanks) as [k|] eqn:Lt; [|discriminate].
  simpl in L. injection L as <-.
  destruct (find_last_not_of_Some _ _ _ Lt) as (init & d & post & Et & <- & Hd & Hpost).
  unfold substr.
  replace (String.length pre + String.length init - String.length pre + 1)
    with (String.length init + 1) by lia.
  rewrite <- (Nat.add_0_r (String.length pre)), substring_skip, Et, substring_prefix.
  cbn [substring]. rewrite substring_0_0.
  assert (Hfirst : find_first_not_of (init ++ String d "") blanks = Some 0).
  { destruct init as [|x init]; cbn [append] in Et |- *.
    - now apply find_first_not_of_head.
    - injection Et as <- _. now apply find_first_not_of_head. }
  repeat split.
  - destruct init; cbn [append]; discriminate.
  - exists pre, post. rewrite append_assoc. simpl. auto.
  - exact Hfirst.
  - rewrite find_last_not_of_end by assumption. f_equal.
    rewrite length_append. simpl. lia.
Qed.

(** X10.  What the line readers cut out of a line.  The cut exists exactly
    when the line has a character other than blank, tab, carriage return and
    line feed.  It is then not empty, it is the line without the run of such
    characters at its start and the run at its end, and it begins and ends
    with a character of another kind. *)
Theorem trimmed_spec (line : string) :
  (trimmed line = None <-> allIn blanks line = true) /\
  (forall s, trimmed line = Some s ->
     s <> "" /\
     (exists pre post,
        line = pre ++ s ++ post /\ allIn blanks pre = true /\ allIn blanks post = true) /\
     find_first_not_of s blanks = Some 0 /\
     find_last_not_of s blanks = Some (String.length s - 1)).
Proof. split; [apply trimmed_None | intros s; apply trimmed_Some]. Qed.

(** X11.  Cutting twice is cutting once: a label that came out of the cut
    is passed on unchanged by another cut. *)
Theorem trimmed_idempotent (line s : string) :
  trimmed line = Some s -> trimmed s = Some s.
Proof.
  intros H. destruct (trimmed_Some line s H) as (Hne & _ & F & L).
  unfold trimmed. rewrite F, L. unfold substr.
  replace (String.length s - 1 - 0 + 1) with (String.length s).
  - now rewrite substring_all.
  - destruct s; [contradiction | simpl; lia].
Qed.

Lemma trimmed_idempotent_witness : trimmed "A-12" = Some "A-12".
Proof. apply (trimmed_idempotent "  A-12 " "A-12"). reflexivity. Defined.

End Trimming.

(** ** The console readers *)

Section Readers.

Local Open Scope list_scope.

Lemma trimmed_nonempty (line s : string) :
  trimmed line = Some s -> (String.length s =? 0)%nat = false.
Proof.
  intros H. destruct (trimmed_Some line s H) as [Hne _].
  destruct s; [contradiction | reflexivity].
Qed.

Lemma inputNonEmptyString_loop_spec (prompt : string) (lines : list string) :
  forall out,
    match inputNonEmptyString_loop prompt lines out with
    | Got s c' =>
        exists skipped line,
          lines = skipped ++ line :: cin c' /\
          forallb rejectedLabel skipped = true /\
          trimmed line = Some s /\
          cout c' = out ++ flat_map (fun _ => [OutStr prompt; OutStr errEmptyString]) skipped
                        ++ [OutStr prompt]
    | Hangs => forallb rejectedLabel lines = true
    end.
Proof.
  induction lines as [|line rest IH]; intros out; simpl; [reflexivity|].
  destruct (trimmed line) as [s|] eqn:T.
  - rewrite (trimmed_nonempty _ _ T). simpl.
    exists [], line. simpl. auto.
  - assert (R : rejectedLabel line = true) by (now apply trimmed_None).
    specialize (IH ((out ++ [OutStr prompt]) ++ [OutStr errEmptyString])).
    destruct (inputNonEmptyString_loop prompt rest _) as [s c'|].
    + destruct IH as (skipped & l & -> & Hsk & Hl & Hout).
      exists (line :: skipped), l. simpl. rewrite R, Hsk, Hl, Hout.
      repeat split. rewrite <- !app_assoc. reflexivity.
    + rewrite R, IH. reflexivity.
Qed.

(** X12.  [inputNonEmptyString] returns the cut of the first line that has
    a character to keep.  Each line before it is answered with the prompt and
    the error message, the accepted line with the prompt alone, and the lines
    after it are left unread.  When no line of the input qualifies the
    function never returns. *)
Theorem inputNonEmptyString_spec (prompt : string) (c : Console) :
  match inputNonEmptyString prompt c with
  | Got s c' =>
      exists skipped line,
        cin c = skipped ++ line :: cin c' /\
        forallb rejectedLabel skipped = true /\
        trimmed line = Some s /\
        cout c' = cout c ++ flat_map (fun _ => [OutStr prompt; OutStr errEmptyString]) skipped
                         ++ [OutStr prompt]
  | Hangs => forallb rejectedLabel (cin c) = true
  end.
Proof. apply inputNonEmptyString_loop_spec. Qed.

Variable extractDouble : string -> option float.

Lemma inputPositiveDouble_loop_spec (prompt : string) (lines : list string) :
  forall prompted out,
    match inputPositiveDouble_loop extractDouble prompt prompted lines out with
    | Got x c' =>
        (x <=? 0)%float = false /\ (1000000 <? x)%float = false /\
        exists skipped line,
          lines = skipped ++ line :: cin c' /\
          forallb (rejectedBaseCost extractDouble) skipped = true /\
          allSpace line = false /\ extractDouble line = Some x
    | Hangs => forallb (rejectedBaseCost extractDouble) lines = true
    end.
Proof.
  induction lines as [|line rest IH]; intros prompted out; simpl; [reflexivity|].
  assert (Step : forall p o,
            rejectedBaseCost extractDouble line = true ->
            match inputPositiveDouble_loop extractDouble prompt p rest o with
            | Got x c' =>
                (x <=? 0)%float = false /\ (1000000 <? x)%float = false /\
                exists skipped l,
                  line :: rest = skipped ++ l :: cin c' /\
                  forallb (rejectedBaseCost extractDouble) skipped = true /\
                  allSpace l = false /\ extractDouble l = Some x
            | Hangs => rejectedBaseCost extractDouble line
                       && forallb (rejectedBaseCost extractDouble) rest = true
            end).
  { intros p o R. specialize (IH p o).
    destruct (inputPositiveDouble_loop extractDouble prompt p rest o) as [x c'|].
    - destruct IH as (H1 & H2 & skipped & l & -> & Hsk & Hl & Hx).
      repeat split; auto. exists (line :: skipped), l. simpl. rewrite R, Hsk. auto.
    - rewrite R, IH. reflexivity. }
  destruct (allSpace line) eqn:Sp;
    [apply Step; unfold rejectedBaseCost; now rewrite Sp|].
  destruct (extractDouble line) as [x|] eqn:Ex;
    [|apply Step; unfold rejectedBaseCost; now rewrite Sp, Ex].
  destruct (x <=? 0)%float eqn:E1;
    [apply Step; unfold rejectedBaseCost; now rewrite Sp, Ex, E1|].
  destruct (1000000 <? x)%float eqn:E2;
    [apply Step; unfold rejectedBaseCost; now rewrite Sp, Ex, E1, E2|].
  repeat split; auto. exists [], line. simpl. auto.
Qed.

(** X13.  [inputPositiveDouble] returns the number of the first line that
    holds more than white space, from which a number is extracted, and whose
    number neither compares at most 0 nor above 1000000; the lines after it
    are left unread.  When no line qualifies it never returns. *)
Theorem inputPositiveDouble_spec (prompt : string) (c : Console) :
  match inputPositiveDouble extractDouble prompt c with
  | Got x c' =>
      (x <=? 0)%float = false /\ (1000000 <? x)%float = false /\
      exists skipped line,
        cin c = skipped ++ line :: cin c' /\
        forallb (rejectedBaseCost extractDouble) skipped = true /\
        allSpace line = false /\ extractDouble line = Some x
  | Hangs => forallb (rejectedBaseCost extractDouble) (cin c) = true
  end.
Proof. apply inputPositiveDouble_loop_spec. Qed.

Lemma inputNonNegativeDouble_loop_spec (prompt : string) (lines : list string) :
  forall prompted out,
    match inputNonNegativeDouble_loop extractDouble prompt prompted lines out with
    | Got x c' =>
        (x <? 0)%float = false /\ (100 <=? x)%float = false /\
        exists skipped line,
          lines = skipped ++ line :: cin c' /\
          forallb (rejectedDiscount extractDouble) skipped = true /\
          allSpace line = false /\ extractDouble line = Some x
    | Hangs => forallb (rejectedDiscount extractDouble) lines = true
    end.
Proof.
  induction lines as [|line rest IH]; intros prompted out; simpl; [reflexivity|].
  assert (Step : forall p o,
            rejectedDiscount extractDouble line = true ->
            match inputNonNegativeDouble_loop extractDouble prompt p rest o with
            | Got x c' =>
                (x <? 0)%float = false /\ (100 <=? x)%float = false /\
                exists skipped l,
                  line :: rest = skipped ++ l :: cin c' /\
                  forallb (rejectedDiscount extractDouble) skipped = true /\
                  allSpace l = false /\ extractDouble l = Some x
            | Hangs => rejectedDiscount extractDouble line
                       && forallb (rejectedDiscount extractDouble) rest = true
            end).
  { intros p o R. specialize (IH p o).
    destruct (inputNonNegativeDouble_loop extractDouble prompt p rest o) as [x c'|].
    - destruct IH as (H1 & H2 & skipped & l & -> & Hsk & Hl & Hx).
      repeat split; auto. exists (line :: skipped), l. simpl. rewrite R, Hsk. auto.
    - rewrite R, IH. reflexivity. }
  destruct (allSpace line) eqn:Sp;
    [apply Step; unfold rejectedDiscount; now rewrite Sp|].
  destruct (extractDouble line) as [x|] eqn:Ex;
    [|apply Step; unfold rejectedDiscount; now rewrite Sp, Ex].
  destruct (x <? 0)%float eqn:E1;
    [apply Step; unfold rejectedDiscount; now rewrite Sp, Ex, E1|].
  destruct (100 <=? x)%float eqn:E2;
    [apply Step; unfold rejectedDiscount; now rewrite Sp, Ex, E1, E2|].
  repeat split; auto. exists [], line. simpl. auto.
Qed.

(** X14.  [inputNonNegativeDouble] returns the number of the first line that
    holds more than white space, from which a number is extracted, and whose
    number neither compares below 0 nor at least 100; the lines after it are
    left unread.  When no line qualifies it never returns. *)
Theorem inputNonNegativeDouble_spec (prompt : string) (c : Console) :
  match inputNonNegativeDouble extractDouble prompt c with
  | Got x c' =>
      (x <? 0)%float = false /\ (100 <=? x)%float = false /\
      exists skipped line,
        cin c = skipped ++ line :: cin c' /\
        forallb (rejectedDiscount extractDouble) skipped = true /\
        allSpace line = false /\ extractDouble line = Some x
  | Hangs => forallb (rejectedDiscount extractDouble) (cin c) = true
  end.
Proof. apply inputNonNegativeDouble_loop_spec. Qed.

End Readers.

(** ** The menu choice, the listing and the readers before [addRoom] *)

Section MenuChoice.

Local Open Scope list_scope.

Lemma decimalValue_lower (s : string) :
  forall acc, (0 <= acc)%Z -> all_of_isdigit s = true -> (acc <= decimalValue s acc)%Z.
Proof.
  induction s as [|c s IH]; intros acc Hacc Hd;
    cbn [decimalValue all_of_isdigit] in *; [lia|].
  apply andb_true_iff in Hd. destruct Hd as [Hc Hs].
  unfold isdigit in Hc. apply andb_true_iff in Hc. destruct Hc as [Hlo Hhi].
  apply Nat.leb_le in Hlo. apply Nat.leb_le in Hhi.
  assert (Hnext : (0 <= 10 * acc + (Z.of_nat (nat_of_ascii c) - 48))%Z) by lia.
  specialize (IH _ Hnext Hs). lia.
Qed.

Lemma inputMenuChoice_loop_spec (prompt : string) (low high : Z) (lines : list string) :
  forall out,
    match inputMenuChoice_loop prompt low high lines out with
    | Chosen val c' =>
        (low <= val <= high)%Z /\ (0 <= val <= INT_MAX)%Z /\
        exists skipped line s,
          lines = skipped ++ line :: cin c' /\
          forallb (rejectedChoice low high) skipped = true /\
          trimmed line = Some s /\ all_of_isdigit s = true /\ val = decimalValue s 0
    | ThrowsOutOfRange c' =>
        exists skipped line s,
          lines = skipped ++ line :: cin c' /\
          forallb (rejectedChoice low high) skipped = true /\
          trimmed line = Some s /\ all_of_isdigit s = true /\
          (INT_MAX < decimalValue s 0)%Z
    | MenuHangs => forallb (rejectedChoice low high) lines = true
    end.
Proof.
  induction lines as [|line rest IH]; intros out; simpl; [reflexivity|].
  assert (Step : forall o,
            rejectedChoice low high line = true ->
            match inputMenuChoice_loop prompt low high rest o with
            | Chosen val c' =>
                (low <= val <= high)%Z /\ (0 <= val <= INT_MAX)%Z /\
                exists skipped l s,
                  line :: rest = skipped ++ l :: cin c' /\
                  forallb (rejectedChoice low high) skipped = true /\
                  trimmed l = Some s /\ all_of_isdigit s = true /\ val = decimalValue s 0
            | ThrowsOutOfRange c' =>
                exists skipped l s,
                  line :: rest = skipped ++ l :: cin c' /\
                  forallb (rejectedChoice low high) skipped = true /\
                  trimmed l = Some s /\ all_of_isdigit s = true /\
                  (INT_MAX < decimalValue s 0)%Z
            | MenuHangs => rejectedChoice low high line
                           && forallb (rejectedChoice low high) rest = true
            end).
  { intros o R. specialize (IH o).
    destruct (inputMenuChoice_loop prompt low high rest o) as [val c'|c'|].
    - destruct IH as (H1 & H2 & skipped & l & s & -> & Hsk & Hrest).
      repeat split; try tauto. exists (line :: skipped), l, s. simpl. rewrite R, Hsk. auto.
    - destruct IH as (skipped & l & s & -> & Hsk & Hrest).
      exists (line :: skipped), l, s. simpl. rewrite R, Hsk. auto.
    - rewrite R, IH. reflexivity. }
  destruct (trimmed line) as [s|] eqn:T;
    [|apply Step; unfold rejectedChoice; now rewrite T].
  rewrite (trimmed_nonempty _ _ T). simpl.
  destruct (all_of_isdigit s) eqn:D; simpl;
    [|apply Step; unfold rejectedChoice; now rewrite T, D].
  unfold stoi. destruct (decimalValue s 0 <=? INT_MAX)%Z eqn:Fit.
  - destruct ((decimalValue s 0 <? low)%Z || (high <? decimalValue s 0)%Z) eqn:Rg.
    + apply Step. unfold rejectedChoice. rewrite T, D, Fit, Rg. reflexivity.
    + apply orb_false_iff in Rg. destruct Rg as [R1 R2].
      apply Z.ltb_ge in R1. apply Z.ltb_ge in R2. apply Z.leb_le in Fit.
      pose proof (decimalValue_lower s 0 (Z.le_refl 0) D).
      repeat split; try lia. exists [], line, s. simpl. auto.
  - apply Z.leb_gt in Fit. exists [], line, s. simpl. auto.
Qed.

(** X15.  [inputMenuChoice] looks at the lines in turn.  It returns the
    number written by the first line whose cut is all decimal digits and
    whose number lies between [low] and [high]; that number also fits an
    [int].  But when it first meets a line of digits whose number is above
    [INT_MAX], [std::stoi] throws [std::out_of_range] out of the function.
    When neither kind of line comes the function never returns. *)
Theorem inputMenuChoice_spec (prompt : string) (low high : Z) (c : Console) :
  match inputMenuChoice prompt low high c with
  | Chosen val c' =>
      (low <= val <= high)%Z /\ (0 <= val <= INT_MAX)%Z /\
      exists skipped line s,
        cin c = skipped ++ line :: cin c' /\
        forallb (rejectedChoice low high) skipped = true /\
        trimmed line = Some s /\ all_of_isdigit s = true /\ val = decimalValue s 0
  | ThrowsOutOfRange c' =>
      exists skipped line s,
        cin c = skipped ++ line :: cin c' /\
        forallb (rejectedChoice low high) skipped = true /\
        trimmed line = Some s /\ all_of_isdigit s = true /\
        (INT_MAX < decimalValue s 0)%Z
  | MenuHangs => forallb (rejectedChoice low high) (cin c) = true
  end.
Proof. apply inputMenuChoice_loop_spec. Qed.

End MenuChoice.

Section MenuAdd.

Local Open Scope list_scope.

Variable extractDouble : string -> option float.

(** X16.  What the three readers hand to [addRoom] never makes a
    constructor throw: with a label from [inputNonEmptyString], a base cost
    from [inputPositiveDouble] and a discount from [inputNonNegativeDouble],
    the call returns normally or throws the duplicate exception, and it
    returns exactly when the label is not stored yet. *)
Theorem menu_addRoom_never_invalid (p1 p2 p3 : string) (c c1 c2 c3 : Console)
    (number : string) (baseCost discount : float) (hotel : State) :
  inputNonEmptyString p1 c = Got number c1 ->
  inputPositiveDouble extractDouble p2 c1 = Got baseCost c2 ->
  inputNonNegativeDouble extractDouble p3 c2 = Got discount c3 ->
  (fst (addRoom number baseCost discount hotel) = inr tt /\
   ~ In number (map getNumber (rooms hotel))) \/
  (failsWith isDuplicateRoom (fst (addRoom number baseCost discount hotel)) /\
   In number (map getNumber (rooms hotel))).
Proof.
  unfold inputNonEmptyString, inputPositiveDouble, inputNonNegativeDouble.
  intros H1 H2 H3.
  pose proof (inputNonEmptyString_loop_spec p1 (cin c) (cout c)) as S1.
  rewrite H1 in S1.
  pose proof (inputPositiveDouble_loop_spec extractDouble p2 (cin c1) false (cout c1)) as S2.
  rewrite H2 in S2.
  pose proof (inputNonNegativeDouble_loop_spec extractDouble p3 (cin c2) false (cout c2)) as S3.
  rewrite H3 in S3.
  destruct S1 as (_ & line & _ & _ & T & _).
  destruct S2 as (B & _). destruct S3 as (D1 & D2 & _).
  assert (Hv : validArgs number baseCost discount = true).
  { unfold validArgs. rewrite (trimmed_nonempty _ _ T), B, D1, D2. simpl.
    apply orb_true_r. }
  pose proof (existsRoomNumber_loop_In (rooms hotel) number) as Hin.
  rewrite addRoom_run. cbv zeta. rewrite Hv.
  destruct (existsRoomNumber_loop (rooms hotel) number).
  - right. split; [reflexivity | now apply Hin].
  - left. split; [reflexivity|]. intros H. apply Hin in H. discriminate.
Qed.

End MenuAdd.

Section MenuAddExample.

Local Open Scope list_scope.

Lemma menu_addRoom_never_invalid_witness :
  let extract := fun s => if String.eqb s "100" then Some 100%float
                          else if String.eqb s "15" then Some 15%float else None in
  let c := mkConsole [" 101 "; "100"; "15"] [] in
  (fst (addRoom "101" 100 15 emptyHotel) = inr tt /\
   ~ In "101" (map getNumber (rooms emptyHotel))) \/
  (failsWith isDuplicateRoom (fst (addRoom "101" 100 15 emptyHotel)) /\
   In "101" (map getNumber (rooms emptyHotel))).
Proof.
  intros extract c.
  apply (menu_addRoom_never_invalid extract "a" "b" "c" c
           (mkConsole ["100"; "15"] [OutStr "a"])
           (mkConsole ["15"] [OutStr "a"; OutStr "b"])
           (mkConsole [] [OutStr "a"; OutStr "b"; OutStr "c"])
           "101" 100 15 emptyHotel); reflexivity.
Defined.

End MenuAddExample.

Section PrintAll.

Local Open Scope list_scope.

Lemma printAll_loop_app (rs : list RoomBase) (r : RoomBase) :
  printAll_loop (rs ++ [r]) = printAll_loop rs ++ printRow r.
Proof.
  induction rs as [|x rs IH]; cbn [app printAll_loop].
  - apply app_nil_r.
  - rewrite IH. apply app_assoc.
Qed.

Lemma printAll_snoc (rs : list RoomBase) (r : RoomBase) (log : list string) :
  printAll (mkState (rs ++ [r]) log) = printAllHeader ++ printAll_loop rs ++ printRow r.
Proof.
  unfold printAll. cbn [rooms]. rewrite <- printAll_loop_app.
  destruct rs; reflexivity.
Qed.

(** X17.  The listing follows the calls: after a call that returned,
    [printAll] writes what it wrote before (the heading alone for a hotel
    that was empty) followed by the row of the new room, which shows the
    label, the base cost and the final cost of the call; after a call that
    threw it writes what it wrote before. *)
Theorem printAll_after_addRoom (st : State) (number : string) (baseCost discountPercent : float) :
  printAll (snd (addRoom number baseCost discountPercent st))
  = match fst (addRoom number baseCost discountPercent st) with
    | inl _ => printAll st
    | inr _ =>
        (match rooms st with [] => printAllHeader | _ :: _ => printAll st end)
        ++ [OutManip Left; OutManip (Setw 12); OutStr number;
            OutManip (Setw 14); OutManip Fixed; OutManip (Setprecision 2);
            OutDouble baseCost;
            OutManip (Setw 16); OutManip Fixed; OutManip (Setprecision 2);
            OutDouble (computeCost (strategyFor discountPercent) baseCost);
            OutChar "010"%char]
    end.
Proof.
  pose proof (invalid_args_throw st number baseCost discountPercent) as Hbad.
  rewrite addRoom_run in *. cbv zeta in *.
  destruct (existsRoomNumber_loop (rooms st) number); [reflexivity|].
  destruct (validArgs number baseCost discountPercent); simpl.
  - rewrite printAll_snoc. unfold printAll.
    destruct (rooms st) as [|r rs]; [reflexivity|].
    rewrite <- app_assoc. reflexivity.
  - specialize (Hbad eq_refl eq_refl). simpl in Hbad.
    destruct (fst (addRoom number baseCost discountPercent st)); [reflexivity | contradiction].
Qed.

End PrintAll.

(** ** The loop of [main] *)

Section MainLoop.

Local Open Scope list_scope.

Variable extractDouble : string -> option float.

Lemma calculateAverageCost_state (st : State) : snd (calculateAverageCost st) = st.
Proof. run_hotel. destruct (rooms st); reflexivity. Qed.

Lemma reachable_NoDup (st : State) : reachable st -> NoDup (map getNumber (rooms st)).
Proof.
  induction 1 as [|st number baseCost discountPercent _ IH]; [constructor|].
  now apply addRoom_keeps_NoDup.
Qed.

(** Every reader that returns has consumed at least one line. *)
Lemma inputMenuChoice_consumes (prompt : string) (low high : Z) (c : Console) :
  match inputMenuChoice prompt low high c with
  | Chosen _ c' => List.length (cin c') < List.length (cin c)
  | _ => True
  end.
Proof.
  unfold inputMenuChoice.
  pose proof (inputMenuChoice_loop_spec prompt low high (cin c) (cout c)) as S.
  destruct (inputMenuChoice_loop prompt low high (cin c) (cout c)) as [val c'|c'|]; auto.
  destruct S as (_ & _ & skipped & line & s & -> & _).
  rewrite length_app. simpl. lia.
Qed.

Lemma inputNonEmptyString_consumes (prompt : string) (c : Console) :
  match inputNonEmptyString prompt c with
  | Got _ c' => List.length (cin c') < List.length (cin c)
  | Hangs => True
  end.
Proof.
  unfold inputNonEmptyString.
  pose proof (inputNonEmptyString_loop_spec prompt (cin c) (cout c)) as S.
  destruct (inputNonEmptyString_loop prompt (cin c) (cout c)) as [s c'|]; auto.
  destruct S as (skipped & line & -> & _). rewrite length_app. simpl. lia.
Qed.

Lemma inputPositiveDouble_consumes (prompt : string) (c : Console) :
  match inputPositiveDouble extractDouble prompt c with
  | Got _ c' => List.length (cin c') < List.length (cin c)
  | Hangs => True
  end.
Proof.
  unfold inputPositiveDouble.
  pose proof (inputPositiveDouble_loop_spec extractDouble prompt (cin c) false (cout c)) as S.
  destruct (inputPositiveDouble_loop extractDouble prompt false (cin c) (cout c))
    as [s c'|]; auto.
  destruct S as (_ & _ & skipped & line & -> & _). rewrite length_app. simpl. lia.
Qed.

Lemma inputNonNegativeDouble_consumes (prompt : string) (c : Console) :
  match inputNonNegativeDouble extractDouble prompt c with
  | Got _ c' => List.length (cin c') < List.length (cin c)
  | Hangs => True
  end.
Proof.
  unfold inputNonNegativeDouble.
  pose proof (inputNonNegativeDouble_loop_spec extractDouble prompt (cin c) false (cout c)) as S.
  destruct (inputNonNegativeDouble_loop extractDouble prompt false (cin c) (cout c))
    as [s c'|]; auto.
  destruct S as (_ & _ & skipped & line & -> & _). rewrite length_app. simpl. lia.
Qed.

Lemma mainLoop_sound (fuel : nat) :
  forall hotel c,
    List.length (cin c) < fuel -> reachable hotel ->
    match mainLoop extractDouble fuel hotel c with
    | Exits code hotel' _ => code = 0%Z /\ reachable hotel'
    | OutOfFuel => False
    | _ => True
    end.
Proof.
  induction fuel as [|fuel IH]; intros hotel c Hlen Hreach; [lia|].
  cbn [mainLoop].
  pose proof (inputMenuChoice_consumes promptChoice 0 3 (write c menuText)) as Hc.
  destruct (inputMenuChoice promptChoice 0 3 (write c menuText)) as [choice c1|c1|];
    cbn [cin write] in Hc; auto.
  destruct (choice =? 0)%Z; [auto|].
  destruct (choice =? 1)%Z.
  { pose proof (inputNonEmptyString_consumes promptNumber c1) as H2.
    destruct (inputNonEmptyString promptNumber c1) as [number c2|]; auto.
    pose proof (inputPositiveDouble_consumes promptBaseCost c2) as H3.
    destruct (inputPositiveDouble extractDouble promptBaseCost c2) as [b c3|]; auto.
    pose proof (inputNonNegativeDouble_consumes promptDiscount c3) as H4.
    destruct (inputNonNegativeDouble extractDouble promptDiscount c3) as [d c4|]; auto.
    pose proof (reachable_addRoom hotel number b d Hreach) as Hr.
    destruct (addRoom number b d hotel) as [[e|u] hotel']; simpl in Hr;
      apply IH; cbn [cin write]; solve [lia | assumption]. }
  destruct (choice =? 2)%Z.
  { apply IH; cbn [cin write]; [lia | assumption]. }
  destruct (choice =? 3)%Z.
  { pose proof (calculateAverageCost_state hotel) as Hs.
    destruct (calculateAverageCost hotel) as [[e|avg] hotel']; simpl in Hs; subst hotel';
      apply IH; cbn [cin write]; solve [lia | assumption]. }
  apply IH; [lia | assumption].
Qed.

Lemma mainLoop_fuel (fuel : nat) :
  forall fuel' hotel c,
    List.length (cin c) < fuel -> List.length (cin c) < fuel' ->
    mainLoop extractDouble fuel hotel c = mainLoop extractDouble fuel' hotel c.
Proof.
  induction fuel as [|fuel IH]; intros fuel' hotel c Hlen Hlen'; [lia|].
  destruct fuel' as [|fuel']; [lia|].
  cbn [mainLoop].
  pose proof (inputMenuChoice_consumes promptChoice 0 3 (write c menuText)) as Hc.
  destruct (inputMenuChoice promptChoice 0 3 (write c menuText)) as [choice c1|c1|];
    cbn [cin write] in Hc; auto.
  destruct (choice =? 0)%Z; [auto|].
  destruct (choice =? 1)%Z.
  { pose proof (inputNonEmptyString_consumes promptNumber c1) as H2.
    destruct (inputNonEmptyString promptNumber c1) as [number c2|]; auto.
    pose proof (inputPositiveDouble_consumes promptBaseCost c2) as H3.
    destruct (inputPositiveDouble extractDouble promptBaseCost c2) as [b c3|]; auto.
    pose proof (inputNonNegativeDouble_consumes promptDiscount c3) as H4.
    destruct (inputNonNegativeDouble extractDouble promptDiscount c3) as [d c4|]; auto.
    destruct (addRoom number b d hotel) as [[e|u] hotel'];
      apply IH; cbn [cin write]; lia. }
  destruct (choice =? 2)%Z.
  { apply IH; cbn [cin write]; lia. }
  destruct (choice =? 3)%Z.
  { destruct (calculateAverageCost hotel) as [[e|avg] hotel'];
      apply IH; cbn [cin write]; lia. }
  apply IH; lia.
Qed.

Lemma endsAs_after_round (hotel : State) (c : Console) (hotel1 : State) (c1 : Console)
    (r : MainRun) :
  round extractDouble hotel c hotel1 c1 -> endsAs extractDouble hotel1 c1 r ->
  endsAs extractDouble hotel c r.
Proof.
  intros R. destruct r as [code h c'|c'| |]; simpl.
  - intros (Hc & c0 & c2 & Hr & H). split; [exact Hc|].
    exists c0, c2. split; [eapply rounds_more; eassumption | exact H].
  - intros (h & c0 & Hr & H). exists h, c0.
    split; [eapply rounds_more; eassumption | exact H].
  - intros (h & c0 & Hr & H). exists h, c0.
    split; [eapply rounds_more; eassumption | exact H].
  - auto.
Qed.

(** A reader that never returns has rejected every line that was left. *)
Lemma inputMenuChoice_hangs (prompt : string) (low high : Z) (c : Console) :
  inputMenuChoice prompt low high c = MenuHangs ->
  forallb (rejectedChoice low high) (cin c) = true.
Proof.
  unfold inputMenuChoice. intros H.
  pose proof (inputMenuChoice_loop_spec prompt low high (cin c) (cout c)) as S.
  rewrite H in S. exact S.
Qed.

Lemma inputNonEmptyString_hangs (prompt : string) (c : Console) :
  inputNonEmptyString prompt c = Hangs -> forallb rejectedLabel (cin c) = true.
Proof.
  unfold inputNonEmptyString. intros H.
  pose proof (inputNonEmptyString_loop_spec prompt (cin c) (cout c)) as S.
  rewrite H in S. exact S.
Qed.

Lemma inputPositiveDouble_hangs (prompt : string) (c : Console) :
  inputPositiveDouble extractDouble prompt c = Hangs ->
  forallb (rejectedBaseCost extractDouble) (cin c) = true.
Proof.
  unfold inputPositiveDouble. intros H.
  pose proof (inputPositiveDouble_loop_spec extractDouble prompt (cin c) false (cout c)) as S.
  rewrite H in S. exact S.
Qed.

Lemma inputNonNegativeDouble_hangs (prompt : string) (c : Console) :
  inputNonNegativeDouble extractDouble prompt c = Hangs ->
  forallb (rejectedDiscount extractDouble) (cin c) = true.
Proof.
  unfold inputNonNegativeDouble. intros H.
  pose proof (inputNonNegativeDouble_loop_spec extractDouble prompt (cin c) false (cout c)) as S.
  rewrite H in S. exact S.
Qed.

(** With a round of fuel for every line left and one more, the loop ends as
    the rounds say. *)
Lemma mainLoop_endsAs (fuel : nat) :
  forall hotel c,
    List.length (cin c) < fuel ->
    endsAs extractDouble hotel c (mainLoop extractDouble fuel hotel c).
Proof.
  induction fuel as [|fuel IH]; intros hotel c Hlen; [lia|].
  cbn [mainLoop].
  pose proof (inputMenuChoice_consumes promptChoice 0 3 (write c menuText)) as Hc.
  destruct (inputMenuChoice promptChoice 0 3 (write c menuText)) as [choice c1|c1|] eqn:Em;
    cbn [cin write] in Hc.
  - destruct (Z.eqb_spec choice 0) as [->|N0].
    { simpl. split; [reflexivity|]. exists c, c1.
      split; [apply rounds_none | split; [exact Em | reflexivity]]. }
    destruct (Z.eqb_spec choice 1) as [->|N1].
    { pose proof (inputNonEmptyString_consumes promptNumber c1) as H2.
      destruct (inputNonEmptyString promptNumber c1) as [number c2|] eqn:E2.
      2:{ simpl. exists hotel, c. split; [apply rounds_none|]. right. exists c1.
          split; [exact Em|]. left. now apply inputNonEmptyString_hangs with promptNumber. }
      pose proof (inputPositiveDouble_consumes promptBaseCost c2) as H3.
      destruct (inputPositiveDouble extractDouble promptBaseCost c2) as [b c3|] eqn:E3.
      2:{ simpl. exists hotel, c. split; [apply rounds_none|]. right. exists c1.
          split; [exact Em|]. right. exists number, c2. split; [exact E2|]. left.
          now apply inputPositiveDouble_hangs with promptBaseCost. }
      pose proof (inputNonNegativeDouble_consumes promptDiscount c3) as H4.
      destruct (inputNonNegativeDouble extractDouble promptDiscount c3) as [d c4|] eqn:E4.
      2:{ simpl. exists hotel, c. split; [apply rounds_none|]. right. exists c1.
          split; [exact Em|]. right. exists number, c2. split; [exact E2|]. right.
          exists b, c3. split; [exact E3|].
          now apply inputNonNegativeDouble_hangs with promptDiscount. }
      pose proof (round_add extractDouble hotel c c1 c2 c3 c4 number b d Em E2 E3 E4) as R.
      destruct (addRoom number b d hotel) as [[e|u] hotel']; cbn [fst snd] in R;
        (eapply endsAs_after_round; [exact R|]); apply IH; cbn [cin write]; lia. }
    destruct (Z.eqb_spec choice 2) as [->|N2].
    { eapply endsAs_after_round; [apply round_list; exact Em|].
      apply IH; cbn [cin write]; lia. }
    destruct (Z.eqb_spec choice 3) as [->|N3].
    { pose proof (round_average extractDouble hotel c c1 Em) as R.
      destruct (calculateAverageCost hotel) as [[e|avg] hotel']; cbn [fst snd] in R;
        (eapply endsAs_after_round; [exact R|]); apply IH; cbn [cin write]; lia. }
    eapply endsAs_after_round; [eapply round_other; eassumption|].
    apply IH; lia.
  - simpl. exists hotel, c. split; [apply rounds_none | exact Em].
  - simpl. exists hotel, c. split; [apply rounds_none|]. left.
    apply (inputMenuChoice_hangs _ _ _ _ Em).
Qed.

(** X18.  How [main] ends.  On every input the run is a sequence of rounds
    of the menu from the empty hotel on, ended in one of three ways: the
    choice 0 is read, and [main] returns 0 with the farewell written and a
    hotel whose labels are all different; or [inputMenuChoice] throws, which
    ends the program; or the lines left are all rejected by the reader whose
    turn it is, and the run never ends.  The rounds counted for [main] always
    suffice, and counting more of them changes nothing. *)
Theorem main_outcome (input : list string) :
  endsAs extractDouble emptyHotel (mkConsole input []) (main extractDouble input) /\
  (forall code hotel c,
     main extractDouble input = Exits code hotel c ->
     NoDup (map getNumber (rooms hotel))) /\
  (forall fuel, List.length input < fuel ->
     mainLoop extractDouble fuel emptyHotel (mkConsole input []) = main extractDouble input).
Proof.
  split; [|split].
  - unfold main. apply mainLoop_endsAs. cbn [cin]. lia.
  - intros code hotel c H.
    pose proof (mainLoop_sound (S (List.length input)) emptyHotel
                  (mkConsole input []) (Nat.lt_succ_diag_r _) reachable_empty) as Hs.
    unfold main in H. rewrite H in Hs. now apply reachable_NoDup.
  - intros fuel Hfuel. unfold main. apply mainLoop_fuel; cbn [cin]; lia.
Qed.

(** X19.  A number too large for an [int] at the menu ends the program: in
    any round, with any hotel, a line whose cut is all decimal digits and
    writes a number above [INT_MAX] makes [std::stoi] throw, and since the
    choice is read outside the [try] block nothing catches the exception. *)
Theorem main_aborts_on_large_choice (fuel : nat) (hotel : State) (out : list Out)
    (line : string) (rest : list string) (s : string) :
  trimmed line = Some s -> all_of_isdigit s = true -> (INT_MAX < decimalValue s 0)%Z ->
  mainLoop extractDouble (S fuel) hotel (mkConsole (line :: rest) out)
  = Aborts (mkConsole rest (out ++ menuText ++ [OutStr promptChoice])).
Proof.
  intros T D Big. cbn [mainLoop]. unfold inputMenuChoice, write. cbn [cin cout].
  cbn [inputMenuChoice_loop]. rewrite T, (trimmed_nonempty _ _ T), D. cbn [negb andb].
  unfold stoi. destruct (Z.leb_spec (decimalValue s 0) INT_MAX) as [H|H]; [lia|].
  rewrite <- app_assoc. reflexivity.
Qed.

End MainLoop.

Section MainLoopExample.

Local Open Scope list_scope.

Lemma main_aborts_on_large_choice_witness :
  mainLoop (fun _ => None) 1 emptyHotel (mkConsole [" 99999999999 "] [])
  = Aborts (mkConsole [] ([] ++ menuText ++ [OutStr promptChoice])).
Proof.
  apply (main_aborts_on_large_choice (fun _ => None) 0 emptyHotel [] " 99999999999 " []
           "99999999999"); reflexivity.
Defined.

End MainLoopExample.

Section MainAddRound.

Local Open Scope list_scope.

Variable extractDouble : string -> option float.

(** One accepted line for each reader. *)
Lemma inputMenuChoice_accepts (prompt : string) (low high : Z) (line : string)
    (rest : list string) (out : list Out) (s : string) :
  trimmed line = Some s -> all_of_isdigit s = true ->
  (decimalValue s 0 <= INT_MAX)%Z -> (low <= decimalValue s 0 <= high)%Z ->
  inputMenuChoice prompt low high (mkConsole (line :: rest) out)
  = Chosen (decimalValue s 0) (mkConsole rest (out ++ [OutStr prompt])).
Proof.
  intros T D Fit Range. unfold inputMenuChoice. cbn [cin cout inputMenuChoice_loop].
  rewrite T, (trimmed_nonempty _ _ T), D. cbn [negb andb]. unfold stoi.
  destruct (Z.leb_spec (decimalValue s 0) INT_MAX) as [_|H]; [|lia].
  destruct (Z.ltb_spec (decimalValue s 0) low) as [H|_]; [lia|].
  destruct (Z.ltb_spec high (decimalValue s 0)) as [H|_]; [lia|]. reflexivity.
Qed.

Lemma inputNonEmptyString_accepts (prompt : string) (line : string)
    (rest : list string) (out : list Out) (s : string) :
  trimmed line = Some s ->
  inputNonEmptyString prompt (mkConsole (line :: rest) out)
  = Got s (mkConsole rest (out ++ [OutStr prompt])).
Proof.
  intros T. unfold inputNonEmptyString. cbn [cin cout inputNonEmptyString_loop].
  rewrite T, (trimmed_nonempty _ _ T). reflexivity.
Qed.

Lemma inputPositiveDouble_accepts (prompt : string) (line : string)
    (rest : list string) (out : list Out) (x : float) :
  allSpace line = false -> extractDouble line = Some x ->
  (x <=? 0)%float = false -> (1000000 <? x)%float = false ->
  inputPositiveDouble extractDouble prompt (mkConsole (line :: rest) out)
  = Got x (mkConsole rest (out ++ [OutStr prompt])).
Proof.
  intros Sp Ex H1 H2. unfold inputPositiveDouble. cbn [cin cout inputPositiveDouble_loop].
  rewrite Sp, Ex, H1, H2. reflexivity.
Qed.

Lemma inputNonNegativeDouble_accepts (prompt : string) (line : string)
    (rest : list string) (out : list Out) (x : float) :
  allSpace line = false -> extractDouble line = Some x ->
  (x <? 0)%float = false -> (100 <=? x)%float = false ->
  inputNonNegativeDouble extractDouble prompt (mkConsole (line :: rest) out)
  = Got x (mkConsole rest (out ++ [OutStr prompt])).
Proof.
  intros Sp Ex H1 H2. unfold inputNonNegativeDouble.
  cbn [cin cout inputNonNegativeDouble_loop].
  rewrite Sp, Ex, H1, H2. reflexivity.
Qed.

(** X20.  One round of the menu that adds a room.  When the choice line is
    cut to [1] and the three lines after it are accepted at once by their
    readers, the round reads exactly these four lines, writes the menu and
    the four prompts, and calls [addRoom] with the cut label and the two
    numbers: on a hotel without the label the room is appended and the
    confirmation written, on a hotel with the label the rooms stay and the
    duplicate message is reported; in both cases the loop goes on. *)
Theorem main_add_round (fuel : nat) (hotel : State) (out : list Out)
    (choiceLine labelLine costLine discountLine : string) (rest : list string)
    (number : string) (baseCost discount : float) :
  trimmed choiceLine = Some "1" ->
  trimmed labelLine = Some number ->
  allSpace costLine = false -> extractDouble costLine = Some baseCost ->
  (baseCost <=? 0)%float = false -> (1000000 <? baseCost)%float = false ->
  allSpace discountLine = false -> extractDouble discountLine = Some discount ->
  (discount <? 0)%float = false -> (100 <=? discount)%float = false ->
  let prompts := out ++ menuText ++ [OutStr promptChoice; OutStr promptNumber;
                                      OutStr promptBaseCost; OutStr promptDiscount] in
  let log := cerr hotel ++
             (if (50 <? String.length number)%nat then [warningTooLong] else []) in
  mainLoop extractDouble (S fuel) hotel
    (mkConsole (choiceLine :: labelLine :: costLine :: discountLine :: rest) out)
  = if existsRoomNumber_loop (rooms hotel) number then
      mainLoop extractDouble fuel (mkState (rooms hotel) log)
        (mkConsole rest
           (prompts ++ [OutStr "Ошибка: ";
                        OutStr ("Дубликат номера: номер '" ++ number ++ "' уже существует");
                        OutChar "010"%char]))
    else
      mainLoop extractDouble fuel
        (mkState (rooms hotel ++ [mkRoomBase number baseCost (strategyFor discount)]) log)
        (mkConsole rest (prompts ++ [OutStr ("Информация о номере добавлена." ++ nl)])).
Proof.
  intros Tc Tl Sc Ec B1 B2 Sd Ed D1 D2 prompts log.
  assert (Hv : validArgs number baseCost discount = true).
  { unfold validArgs. rewrite (trimmed_nonempty _ _ Tl), B1, D1, D2. simpl.
    apply orb_true_r. }
  cbn [mainLoop]. unfold write at 1. cbn [cin cout].
  assert (Fit : (decimalValue "1" 0 <= INT_MAX)%Z) by (vm_compute; discriminate).
  assert (Range : (0 <= decimalValue "1" 0 <= 3)%Z) by (split; vm_compute; discriminate).
  rewrite (inputMenuChoice_accepts promptChoice 0 3 choiceLine _ _ "1" Tc eq_refl Fit Range).
  clear Fit Range.
  change (decimalValue "1" 0) with 1%Z. cbn [Z.eqb Pos.eqb].
  rewrite (inputNonEmptyString_accepts _ _ _ _ _ Tl).
  rewrite (inputPositiveDouble_accepts _ _ _ _ _ Sc Ec B1 B2).
  rewrite (inputNonNegativeDouble_accepts _ _ _ _ _ Sd Ed D1 D2).
  rewrite addRoom_run. cbv zeta. rewrite Hv. fold log.
  assert (Hp : (((out ++ menuText) ++ [OutStr promptChoice]) ++ [OutStr promptNumber])
                 ++ [OutStr promptBaseCost] = out ++ menuText ++
               [OutStr promptChoice; OutStr promptNumber; OutStr promptBaseCost]).
  { rewrite <- !app_assoc. reflexivity. }
  destruct (existsRoomNumber_loop (rooms hotel) number); unfold write; cbn [cin cout];
    f_equal; f_equal; unfold prompts; rewrite <- !app_assoc; reflexivity.
Qed.

End MainAddRound.

Section MainAddRoundExample.

Local Open Scope list_scope.

Lemma main_add_round_witness :
  let extract := fun s => if String.eqb s "100" then Some 100%float
                          else if String.eqb s "15" then Some 15%float else None in
  mainLoop extract 2 emptyHotel (mkConsole [" 1"; " 101 "; "100"; "15"; "0"] [])
  = Exits 0 (mkState [mkRoomBase "101" 100 (PercentageDiscountStrategy 15)] [])
      (mkConsole []
         (menuText ++ [OutStr promptChoice; OutStr promptNumber; OutStr promptBaseCost;
                       OutStr promptDiscount; OutStr ("Информация о номере добавлена." ++ nl)]
          ++ menuText ++ [OutStr promptChoice; OutStr ("Выход из программы." ++ nl)])).
Proof.
  intros extract.
  rewrite (main_add_round extract 1 emptyHotel [] " 1" " 101 " "100" "15" ["0"]
             "101" 100 15); reflexivity.
Defined.

End MainAddRoundExample.
